(** * ts-caldav: the multistatus parsers and the change detector

    A shallow embedding of [src/utils/parser.ts] in its two variants (the one
    backed by ical.js and the one backed by node-ical) and of the models they
    build, followed by the properties checked against them.

    The parsers are JavaScript: the values they read out of the decoded XML
    tree and out of the iCalendar back-ends are dynamically typed, property
    reads on [undefined] throw, and most fields are passed through exactly as
    decoded.  The embedding keeps all of that: one type of JavaScript values,
    an exception result, and the libraries the code imports as interfaces. *)

From stdpp Require Import base decidable option list strings pretty gmap.
From Stdlib Require Import ZArith Ascii.

Local Open Scope string_scope.

(** ** JavaScript values *)

(** A number, as far as the parsers can observe one (they test numbers for
    truthiness, print them and pass them on): an integer, NaN, or any other
    number (a fraction, an infinity), which is not zero and is known through
    its printed form. *)
Inductive Number : Type :=
| Int (z : Z)
| NaN
| Real (printed : string).

Coercion Int : Z >-> Number.
Bind Scope Z_scope with Number.

(** The values the parsers handle: a [Date] carries its time
    value in milliseconds, [None] being the invalid date whose time value is
    NaN, and the [tz] property node-ical attaches to it; [JsTime] is an
    [ICAL.Time] of ical.js with its [isDate] flag, the result of
    [toUnixTime()] ([None] for NaN) and of [toString()]; [JsHost] is any other
    library object (a duration, a recurrence rule, ...), known through its
    [toString()]. *)
#[warnings="-register-all"]
Inductive JsValue : Type :=
| JsUndefined
| JsNull
| JsBool (b : bool)
| JsNum (n : Number)
| JsStr (s : string)
| JsArr (elems : list JsValue)
| JsObj (fields : list (string * JsValue))
| JsDate (time : option Z) (tz : JsValue)
| JsTime (isDate : bool) (unixTime : option Z) (str : string)
| JsHost (str : string).

(** What a [throw] carries. *)
Inductive Exn : Type :=
| TypeError (msg : string)
| LibraryError (msg : string).

(** A computation that returns or throws. *)
Definition result (A : Type) : Type := Exn + A.

Definition ret {A} (a : A) : result A := inr a.
Definition throw {A} (e : Exn) : result A := inl e.

Definition bind {A B} (m : result A) (k : A -> result B) : result B :=
  match m with
  | inl e => inl e
  | inr a => k a
  end.

Notation "'let?' x ':=' m 'in' k" := (bind m (fun x => k))
  (at level 10, x name, m at level 100, k at level 200).

(** [!v]: the falsy values are [undefined], [null], [false], [0], [NaN] and
    [""]. *)
Definition truthy (v : JsValue) : bool :=
  match v with
  | JsUndefined | JsNull => false
  | JsBool b => b
  | JsNum (Int z) => negb (z =? 0)%Z
  | JsNum NaN => false
  | JsNum (Real _) => true
  | JsStr s => negb (String.eqb s "")
  | _ => true
  end.

Definition nullish (v : JsValue) : bool :=
  match v with
  | JsUndefined | JsNull => true
  | _ => false
  end.

(** [typeof v === "string"] *)
Definition is_string (v : JsValue) : bool :=
  match v with
  | JsStr _ => true
  | _ => false
  end.

(** [v === "lit"] for a string literal. *)
Definition strict_eq_str (v : JsValue) (lit : string) : bool :=
  match v with
  | JsStr s => String.eqb s lit
  | _ => false
  end.

Fixpoint assoc (k : string) (fields : list (string * JsValue)) : JsValue :=
  match fields with
  | [] => JsUndefined
  | (k', v) :: rest => if String.eqb k k' then v else assoc k rest
  end.

(** [v[k]] where a missing property reads as [undefined]; only own data
    properties are looked up, which is all the parsers read (none of the keys
    they use is a prototype property of a string, an array or an object). *)
Definition own_property (v : JsValue) (k : string) : JsValue :=
  match v with
  | JsObj fields => assoc k fields
  | JsDate _ tz => if String.eqb k "tz" then tz else JsUndefined
  | _ => JsUndefined
  end.

(** [v[k]]: reading a property of [undefined] or [null] throws. *)
Definition js_get (v : JsValue) (k : string) : result JsValue :=
  if nullish v
  then throw (TypeError ("Cannot read properties of undefined (reading '" ++ k ++ "')"))
  else ret (own_property v k).

(** [v?.[k]] *)
Definition opt_get (v : JsValue) (k : string) : JsValue :=
  if nullish v then JsUndefined else own_property v k.

(** [Array.isArray(v) ? v : [v]] *)
Definition as_array (v : JsValue) : list JsValue :=
  match v with
  | JsArr elems => elems
  | _ => [v]
  end.

(** ** Strings *)

(** [s.includes(search)] *)
Fixpoint includes (s search : string) : bool :=
  if String.prefix search s then true
  else match s with
       | EmptyString => false
       | String _ t => includes t search
       end.

Definition CRLF : string :=
  String (ascii_of_nat 13) (String (ascii_of_nat 10) EmptyString).

(** [s.replace(/&#13;/g, "\r\n")]: every occurrence of the five characters,
    scanning left to right; what was inserted is not scanned again. *)
Fixpoint replace_cr_entity (s : string) : string :=
  match s with
  | String "&" (String "#" (String "1" (String "3" (String ";" t)))) =>
      CRLF ++ replace_cr_entity t
  | String c t => String c (replace_cr_entity t)
  | EmptyString => EmptyString
  end.

(** ** The models (models.ts) *)

(** The component names [parseCalendars] keeps.  The filter in the parser
    lists six names; the [SupportedComponent] type of the models declares the
    first five. *)
Inductive SupportedComponent : Type :=
| VEVENT
| VTODO
| VJOURNAL
| VFREEBUSY
| VTIMEZONE
| VAVAILABILITY.

Global Instance SupportedComponent_eq_dec : EqDecision SupportedComponent.
Proof. solve_decision. Defined.

(** The tagged union [Alarm].  [trigger], [description] and [summary] hold
    what the back-end delivered ([JsUndefined] for an absent optional field). *)
Inductive Alarm : Type :=
| DISPLAY (trigger description : JsValue)
| EMAIL (trigger description summary : JsValue) (attendees : list string)
| AUDIO (trigger : JsValue).

(** The [action] tag of an alarm record. *)
Definition action (a : Alarm) : string :=
  match a with
  | DISPLAY _ _ => "DISPLAY"
  | EMAIL _ _ _ _ => "EMAIL"
  | AUDIO _ => "AUDIO"
  end.

Definition trigger (a : Alarm) : JsValue :=
  match a with
  | DISPLAY t _ | EMAIL t _ _ _ | AUDIO t => t
  end.

Record EventRef : Type := mkEventRef {
  ref_href : string;
  ref_etag : string
}.

Record SyncChangesResult : Type := mkSyncChangesResult {
  changed : bool;
  newCtag : string;
  newEvents : list string;
  updatedEvents : list string;
  deletedEvents : list string
}.

Record Calendar : Type := mkCalendar {
  displayName : JsValue;
  url : JsValue;
  ctag : JsValue;
  supportedComponents : list SupportedComponent
}.

Inductive Frequency : Type := DAILY | WEEKLY | MONTHLY | YEARLY.

(** The decomposed rule [parseRecurrence] builds. *)
Record RecurrenceRule : Type := mkRecurrenceRule {
  freq : option Frequency;
  interval : Z;
  count : option Z;
  until : option JsValue;
  byday : option (list string);
  bymonthday : option (list Z);
  bymonth : option (list Z)
}.

(** [Event.recurrenceRule]: absent, the decomposed rule of the ical.js
    variant, or the rule object node-ical delivers, passed on as it is. *)
Inductive Recurrence : Type :=
| NoRecurrence
| Decomposed (rule : RecurrenceRule)
| RuleObject (rrule : JsValue).

Record Event : Type := mkEvent {
  uid : JsValue;
  summary : JsValue;
  start : JsValue;
  end_ : JsValue;
  description : JsValue;
  location : JsValue;
  etag : JsValue;
  href : JsValue;
  wholeDay : bool;
  recurrenceRule : Recurrence;
  startTzid : JsValue;
  endTzid : JsValue;
  alarms : list Alarm
}.

(** ** The platform and the XML decoder *)

Record XMLParserOptions : Type := mkXMLParserOptions {
  removeNSPrefix : bool;
  ignoreAttributes : bool;
  attributeNamePrefix : option string
}.

(** What both parser files use besides an iCalendar library:
    fast-xml-parser's [XMLParser.parse], [new URL(href, base).toString()],
    the host's rendering of a [Date] and the host's
    [String.prototype.toLowerCase], which follows the Unicode case mapping (it
    lowers the ASCII letters, and also, for one, the Kelvin sign U+212A to
    [k]).  Each is a function of its arguments. *)
Class Platform : Type := {
  XMLParser_parse : XMLParserOptions -> string -> result JsValue;
  URL_toString : JsValue -> string -> result JsValue;
  Date_toString : option Z -> string;
  toLowerCase : string -> string
}.

Section JsToString.
Context {P : Platform}.

(** [v.toString()] for a [v] that is neither [undefined] nor [null]; inside
    an array those two print as the empty string. *)
Fixpoint js_toString (v : JsValue) : string :=
  match v with
  | JsUndefined => "undefined"
  | JsNull => "null"
  | JsBool b => if b then "true" else "false"
  | JsNum (Int z) => pretty z
  | JsNum NaN => "NaN"
  | JsNum (Real printed) => printed
  | JsStr s => s
  | JsArr elems =>
      (fix join (l : list JsValue) : string :=
         match l with
         | [] => ""
         | x :: rest =>
             let sx := if nullish x then "" else js_toString x in
             match rest with
             | [] => sx
             | _ => sx ++ "," ++ join rest
             end
         end) elems
  | JsObj _ => "[object Object]"
  | JsDate t _ => Date_toString t
  | JsTime _ _ s => s
  | JsHost s => s
  end.

(** [v?.toString()] *)
Definition opt_toString (v : JsValue) : JsValue :=
  if nullish v then JsUndefined else JsStr (js_toString v).
End JsToString.

(** [e || undefined] *)
Definition or_undefined (v : JsValue) : JsValue :=
  if truthy v then v else JsUndefined.

(** [e || d] *)
Definition js_or (v d : JsValue) : JsValue :=
  if truthy v then v else d.

(** [e ?? d] *)
Definition js_coalesce (v d : JsValue) : JsValue :=
  if nullish v then d else v.

(** [baseUrl ? new URL(href, baseUrl).toString() : href] *)
Definition resolve_href `{Platform} (href : JsValue) (baseUrl : option string)
  : result JsValue :=
  match baseUrl with
  | Some base => if String.eqb base "" then ret href else URL_toString href base
  | None => ret href
  end.

(** ** parseCalendars (the same text in both parser files) *)

Definition component_of_name (name : JsValue) : option SupportedComponent :=
  match name with
  | JsStr s =>
      if String.eqb s "VEVENT" then Some VEVENT
      else if String.eqb s "VTODO" then Some VTODO
      else if String.eqb s "VJOURNAL" then Some VJOURNAL
      else if String.eqb s "VFREEBUSY" then Some VFREEBUSY
      else if String.eqb s "VTIMEZONE" then Some VTIMEZONE
      else if String.eqb s "VAVAILABILITY" then Some VAVAILABILITY
      else None
  | _ => None
  end.

(** [compArray.map((c) => c.name)] *)
Fixpoint comp_names (compArray : list JsValue) : result (list JsValue) :=
  match compArray with
  | [] => ret []
  | c :: rest =>
      let? name := js_get c "name" in
      let? names := comp_names rest in
      ret (name :: names)
  end.

(** [propstats.find((p) => typeof p["status"] === "string" &&
    p["status"].toLowerCase().includes("200 ok"))] *)
Fixpoint find_okPropstat `{Platform} (propstats : list JsValue) : result JsValue :=
  match propstats with
  | [] => ret JsUndefined
  | p :: rest =>
      let? status := js_get p "status" in
      match status with
      | JsStr s =>
          if includes (toLowerCase s) "200 ok" then ret p
          else find_okPropstat rest
      | _ => find_okPropstat rest
      end
  end.

(** [prop?.["supported-calendar-component-set"]?.["comp"]], normalised to an
    array. *)
Definition comp_array (prop : JsValue) : list JsValue :=
  let compData := opt_get (opt_get prop "supported-calendar-component-set") "comp" in
  match compData with
  | JsArr elems => elems
  | _ => if truthy compData then [compData] else []
  end.

(** [.includes("VEVENT")] on the filtered names. *)
Definition supports_VEVENT (cs : list SupportedComponent) : bool :=
  bool_decide (VEVENT ∈ cs).

Section ParseCalendars.
Context {P : Platform}.

(** The body of the loop over the responses: [None] is [continue]. *)
Definition calendar_of_response (res : JsValue) (baseUrl : option string)
  : result (option Calendar) :=
  let? propstat := js_get res "propstat" in
  let? okPropstat := find_okPropstat (as_array propstat) in
  if negb (truthy okPropstat) then ret None else
  let? prop := js_get okPropstat "prop" in
  let? names := comp_names (comp_array prop) in
  let supported := omap component_of_name names in
  if negb (supports_VEVENT supported) then ret None else
  let? dn := js_get prop "displayname" in
  let? h := js_get res "href" in
  let? u := resolve_href h baseUrl in
  let? ct := js_get prop "getctag" in
  ret (Some {| displayName := js_coalesce dn (JsStr "");
               url := u;
               ctag := ct;
               supportedComponents := supported |}).

Fixpoint calendars_loop (responses : list JsValue) (baseUrl : option string)
    (calendars : list Calendar) : result (list Calendar) :=
  match responses with
  | [] => ret calendars
  | res :: rest =>
      let? c := calendar_of_response res baseUrl in
      match c with
      | None => calendars_loop rest baseUrl calendars
      | Some calendar => calendars_loop rest baseUrl (calendars ++ [calendar])
      end
  end.

Definition calendarOptions : XMLParserOptions :=
  {| removeNSPrefix := true;
     ignoreAttributes := false;
     attributeNamePrefix := Some "" |}.

Definition parseCalendars (responseData : string) (baseUrl : option string)
  : result (list Calendar) :=
  let? jsonData := XMLParser_parse calendarOptions responseData in
  let? multistatus := js_get jsonData "multistatus" in
  let? response := js_get multistatus "response" in
  calendars_loop (as_array response) baseUrl [].
End ParseCalendars.

(** ** Dates *)

(** [TimeClip] of ECMAScript: a time value beyond 8.64e15 ms is NaN. *)
Definition TimeClip (t : option Z) : option Z :=
  match t with
  | Some z => if (Z.abs z <=? 8640000000000000)%Z then Some z else None
  | None => None
  end.

(** [new Date(t)] for a number [t] ([None] is NaN). *)
Definition new_Date (t : option Z) : JsValue := JsDate (TimeClip t) JsUndefined.

(** [d.getTime()] *)
Definition getTime (d : JsValue) : option Z :=
  match d with
  | JsDate t _ => t
  | _ => None
  end.

Definition DAY_MS : Z := 86400000.

(** ** The loop over the response records (both parseEvents variants) *)

(** What one turn of [for (const obj of response)] does: [continue], push an
    event, catch and log an exception, or let one escape. *)
Inductive Outcome : Type :=
| Continue
| Push (event : Event)
| Caught (error : Exn)
| Uncaught (error : Exn).

(** The state is the [events] array and what [console.error] has received. *)
Fixpoint events_loop (body : JsValue -> Outcome) (response : list JsValue)
    (events : list Event) (console : list Exn) : result (list Event) * list Exn :=
  match response with
  | [] => (ret events, console)
  | obj :: rest =>
      match body obj with
      | Continue => events_loop body rest events console
      | Push event => events_loop body rest (events ++ [event]) console
      | Caught error => events_loop body rest events (console ++ [error])
      | Uncaught error => (throw error, console)
      end
  end.

(** [try { ... } catch (error) { console.error(...) }] around a body whose
    [None] is the [continue] inside it. *)
Definition try_catch (tried : result (option Event)) : Outcome :=
  match tried with
  | inl error => Caught error
  | inr None => Continue
  | inr (Some event) => Push event
  end.

(** [new XMLParser({ removeNSPrefix: true })] *)
Definition eventOptions : XMLParserOptions :=
  {| removeNSPrefix := true;
     ignoreAttributes := true;
     attributeNamePrefix := None |}.

(** The two parser files have the same [parseEvents] around the [try]
    block; it is written once, over the block. *)
Section ParseEventsAround.
Context {P : Platform}.
Variable try_block :
  string -> JsValue -> JsValue -> option string -> result (option Event).

(** The body of [for (const obj of response)]. *)
Definition response_body (baseUrl : option string) (obj : JsValue) : Outcome :=
  match js_get obj "propstat" with
  | inl error => Uncaught error
  | inr propstat =>
      let eventData := opt_get propstat "prop" in
      if negb (truthy eventData) then Continue else
      let rawCalendarData := own_property eventData "calendar-data" in
      if negb (truthy rawCalendarData) then Continue else
      match rawCalendarData with
      | JsStr raw =>
          try_catch (try_block (replace_cr_entity raw) eventData obj baseUrl)
      | _ => Uncaught (TypeError "rawCalendarData.replace is not a function")
      end
  end.

(** The value the promise settles with, and the console. *)
Definition parseEvents_around (responseData : string) (baseUrl : option string)
    (console : list Exn) : result (list Event) * list Exn :=
  match
    (let? jsonData := XMLParser_parse eventOptions responseData in
     let? multistatus := js_get jsonData "multistatus" in
     js_get multistatus "response")
  with
  | inl error => (throw error, console)
  | inr response =>
      if negb (truthy response) then (ret [], console)
      else events_loop (response_body baseUrl) (as_array response) [] console
  end.
End ParseEventsAround.

(** ** ical.js, as far as parser.ts uses it *)

Module ICAL.

(** A property of a component: its lower-cased name, its parameters (a
    string, or an array of strings for a multi-valued one) and its decoded
    values. *)
Record Property : Type := mkProperty {
  name : string;
  parameters : list (string * JsValue);
  values : list JsValue
}.

#[warnings="-register-all"]
Inductive Component : Type :=
| mkComponent (cname : string) (properties : list Property)
    (subcomponents : list Component).

Definition cname (c : Component) : string :=
  match c with mkComponent n _ _ => n end.
Definition properties (c : Component) : list Property :=
  match c with mkComponent _ ps _ => ps end.
Definition subcomponents (c : Component) : list Component :=
  match c with mkComponent _ _ cs => cs end.

Definition getAllSubcomponents (c : Component) (n : string) : list Component :=
  filter (fun s => cname s = n) (subcomponents c).

Definition getFirstSubcomponent (c : Component) (n : string) : option Component :=
  head (getAllSubcomponents c n).

Definition getAllProperties (c : Component) (n : string) : list Property :=
  filter (fun p => name p = n) (properties c).

Definition getFirstProperty (c : Component) (n : string) : option Property :=
  head (getAllProperties c n).

(** [null] when the property has no value. *)
Definition getFirstValue (p : Property) : JsValue :=
  match values p with
  | v :: _ => v
  | [] => JsNull
  end.

(** [null] when the component has no such property. *)
Definition getFirstPropertyValue (c : Component) (n : string) : JsValue :=
  match getFirstProperty c n with
  | Some p => getFirstValue p
  | None => JsNull
  end.

Definition getParameter (p : Property) (n : string) : JsValue :=
  assoc n (parameters p).

(** The frequencies [ICAL.Recur] accepts. *)
Inductive Freq : Type :=
| SECONDLY | MINUTELY | HOURLY | DAILY | WEEKLY | MONTHLY | YEARLY.

(** An [ICAL.Recur]: [freq] is absent when the rule names none, [count] and
    [until] are [null] when not given, and [parts] holds only the BY-parts
    the rule has. *)
Record Recur : Type := mkRecur {
  freq : option Freq;
  interval : Z;
  count : option Z;
  until : option JsValue;
  BYDAY : option (list string);
  BYMONTHDAY : option (list Z);
  BYMONTH : option (list Z)
}.

(** The entry points of the library that are not accessors of the tree:
    [ICAL.parse] followed by [new ICAL.Component], [ICAL.Recur.fromString],
    [ICAL.Time.toJSDate], and the end [ICAL.Event.endDate] computes when
    DTEND gives none (the start plus DURATION, or the day after a date). *)
Class Library : Type := {
  parse : string -> result Component;
  Recur_fromString : string -> result Recur;
  Time_toJSDate : JsValue -> JsValue;
  Event_endDate_default : Component -> result JsValue
}.

(** The getters of [ICAL.Event]: the first value of the property. *)
Definition Event_uid (vevent : Component) : JsValue :=
  getFirstPropertyValue vevent "uid".
Definition Event_summary (vevent : Component) : JsValue :=
  getFirstPropertyValue vevent "summary".
Definition Event_description (vevent : Component) : JsValue :=
  getFirstPropertyValue vevent "description".
Definition Event_location (vevent : Component) : JsValue :=
  getFirstPropertyValue vevent "location".
Definition Event_startDate (vevent : Component) : JsValue :=
  getFirstPropertyValue vevent "dtstart".

Definition Event_endDate `{Library} (vevent : Component) : result JsValue :=
  let dtend := getFirstPropertyValue vevent "dtend" in
  if truthy dtend then ret dtend else Event_endDate_default vevent.

End ICAL.

(** ** parser.ts: parseEvents over ical.js *)

Module IcalJs.
Section WithLibraries.
Context {P : Platform} {L : ICAL.Library}.

Definition normalizeParam (value : JsValue) : JsValue :=
  match value with
  | JsArr [] => JsUndefined
  | JsArr (first :: _) => first
  | _ => value
  end.

Definition parseRecurrence (recur : ICAL.Recur) : RecurrenceRule :=
  {| freq :=
       match ICAL.freq recur with
       | Some ICAL.DAILY => Some DAILY
       | Some ICAL.WEEKLY => Some WEEKLY
       | Some ICAL.MONTHLY => Some MONTHLY
       | Some ICAL.YEARLY => Some YEARLY
       | _ => None
       end;
     interval := ICAL.interval recur;
     count :=
       match ICAL.count recur with
       | Some n => if (n =? 0)%Z then None else Some n
       | None => None
       end;
     until := ICAL.Time_toJSDate <$> ICAL.until recur;
     byday := ICAL.BYDAY recur;
     bymonthday := ICAL.BYMONTHDAY recur;
     bymonth := ICAL.BYMONTH recur |}.

(** [dtProp?.getParameter("tzid")] through [normalizeParam], [|| undefined] *)
Definition tzid_of (dtProp : option ICAL.Property) : JsValue :=
  or_undefined
    (normalizeParam
       (match dtProp with
        | Some p => ICAL.getParameter p "tzid"
        | None => JsUndefined
        end)).

(** [.filter((v): v is string => typeof v === "string")] *)
Definition strings_of (vs : list JsValue) : list string :=
  omap (fun v => match v with JsStr s => Some s | _ => None end) vs.

(** One turn of [for (const valarm of valarms)]: the alarm pushed, if any. *)
Definition alarm_of_valarm (valarm : ICAL.Component) : option Alarm :=
  let action := ICAL.getFirstPropertyValue valarm "action" in
  let trigger := opt_toString (ICAL.getFirstPropertyValue valarm "trigger") in
  if strict_eq_str action "DISPLAY" && truthy trigger then
    Some (DISPLAY trigger
            (or_undefined (opt_toString (ICAL.getFirstPropertyValue valarm "description"))))
  else if strict_eq_str action "EMAIL" && truthy trigger then
    let attendees :=
      strings_of (map ICAL.getFirstValue (ICAL.getAllProperties valarm "attendee")) in
    Some (EMAIL trigger
            (or_undefined (opt_toString (ICAL.getFirstPropertyValue valarm "description")))
            (or_undefined (opt_toString (ICAL.getFirstPropertyValue valarm "summary")))
            attendees)
  else if strict_eq_str action "AUDIO" && truthy trigger then
    Some (AUDIO trigger)
  else None.

(** [new Date(time.toUnixTime() * 1000)]; only an [ICAL.Time] has the
    method. *)
Definition date_of_time (time : JsValue) : result JsValue :=
  match time with
  | JsTime _ unix _ => ret (new_Date (Z.mul 1000 <$> unix))
  | _ => throw (TypeError "toUnixTime is not a function")
  end.

(** The recurrence rule read off the RRULE property. *)
Definition recurrence_of (vevent : ICAL.Component) : result Recurrence :=
  match ICAL.getFirstProperty vevent "rrule" with
  | Some rruleProp =>
      let rrule := ICAL.getFirstValue rruleProp in
      if truthy rrule then
        let? recur := ICAL.Recur_fromString (js_toString rrule) in
        ret (Decomposed (parseRecurrence recur))
      else ret NoRecurrence
  | None => ret NoRecurrence
  end.

(** The statements of the [try] block from the VEVENT on. *)
Definition event_of_vevent (vevent : ICAL.Component) (eventData obj : JsValue)
    (baseUrl : option string) : result Event :=
  let dtStartProp := ICAL.getFirstProperty vevent "dtstart" in
  let dtEndProp := ICAL.getFirstProperty vevent "dtend" in
  match ICAL.Event_startDate vevent with
  | JsTime isWholeDay _ _ =>
      let? startDate := date_of_time (ICAL.Event_startDate vevent) in
      let? rawEnd := ICAL.Event_endDate vevent in
      let? endDate :=
        if truthy rawEnd then date_of_time rawEnd else ret startDate in
      let adjustedEnd :=
        if isWholeDay
        then new_Date ((fun t => t - DAY_MS)%Z <$> getTime endDate)
        else endDate in
      let startTzid := tzid_of dtStartProp in
      let endTzid := tzid_of dtEndProp in
      let? recurrenceRule := recurrence_of vevent in
      let alarms := omap alarm_of_valarm (ICAL.getAllSubcomponents vevent "valarm") in
      let? getetag := js_get eventData "getetag" in
      let? h := js_get obj "href" in
      let? resolved := resolve_href h baseUrl in
      ret {| uid := ICAL.Event_uid vevent;
             summary := js_or (ICAL.Event_summary vevent) (JsStr "Untitled Event");
             start := startDate;
             end_ := adjustedEnd;
             description := or_undefined (ICAL.Event_description vevent);
             location := or_undefined (ICAL.Event_location vevent);
             etag := js_or getetag (JsStr "");
             href := resolved;
             wholeDay := isWholeDay;
             recurrenceRule := recurrenceRule;
             startTzid := startTzid;
             endTzid := endTzid;
             alarms := alarms |}
  | _ => throw (TypeError "startDate is not an ICAL.Time")
  end.

(** The [try] block: [None] is its [continue]. *)
Definition try_block (cleanedCalendarData : string) (eventData obj : JsValue)
    (baseUrl : option string) : result (option Event) :=
  let? vcalendar := ICAL.parse cleanedCalendarData in
  match ICAL.getFirstSubcomponent vcalendar "vevent" with
  | None => ret None
  | Some vevent =>
      let? event := event_of_vevent vevent eventData obj baseUrl in
      ret (Some event)
  end.

Definition event_of_response : option string -> JsValue -> Outcome :=
  response_body try_block.

Definition parseEvents
  : string -> option string -> list Exn -> result (list Event) * list Exn :=
  parseEvents_around try_block.
End WithLibraries.
End IcalJs.

(** ** The other parser file: parseEvents over node-ical *)

Module NodeIcal.

(** [ICAL.sync.parseICS]: the object it returns, as its properties in
    enumeration order. *)
Class Library : Type := {
  parseICS : string -> result (list (string * JsValue))
}.

Section WithLibraries.
Context {P : Platform} {L : Library}.

(** [Object.values(jcalData).find((v) => v.type === "VEVENT")] *)
Fixpoint find_VEVENT (vs : list JsValue) : result JsValue :=
  match vs with
  | [] => ret JsUndefined
  | v :: rest =>
      let? type := js_get v "type" in
      if strict_eq_str type "VEVENT" then ret v else find_VEVENT rest
  end.

(** What [for (const valarm of alarms)] iterates over: the elements of an
    array, the characters of a string; anything else is not iterable. *)
Definition iterate (v : JsValue) : result (list JsValue) :=
  match v with
  | JsArr elems => ret elems
  | JsStr s => ret ((fun c => JsStr (String c EmptyString)) <$> String.list_ascii_of_string s)
  | _ => throw (TypeError "event.alarms is not iterable")
  end.

(** One turn of [for (const valarm of event.alarms)]: the alarm pushed, if
    any. *)
Definition alarm_of_valarm (valarm : JsValue) : result (option Alarm) :=
  let? action := js_get valarm "action" in
  let? trigger := js_get valarm "trigger" in
  if strict_eq_str action "DISPLAY" && truthy trigger then
    let? description := js_get valarm "description" in
    ret (Some (DISPLAY trigger description))
  else if strict_eq_str action "EMAIL" && truthy trigger then
    let? description := js_get valarm "description" in
    let? summary := js_get valarm "summary" in
    let? attendee := js_get valarm "attendee" in
    ret (Some (EMAIL trigger description summary
                 (if truthy attendee then [js_toString attendee] else [])))
  else if strict_eq_str action "AUDIO" && truthy trigger then
    ret (Some (AUDIO trigger))
  else ret None.

Fixpoint alarms_loop (valarms : list JsValue) (alarms : list Alarm)
  : result (list Alarm) :=
  match valarms with
  | [] => ret alarms
  | valarm :: rest =>
      let? pushed := alarm_of_valarm valarm in
      match pushed with
      | Some alarm => alarms_loop rest (alarms ++ [alarm])
      | None => alarms_loop rest alarms
      end
  end.

(** The statements of the [try] block from the VEVENT on. *)
Definition event_of_vevent (event eventData obj : JsValue)
    (baseUrl : option string) : result Event :=
  let? event_alarms := js_get event "alarms" in
  let? alarms :=
    if truthy event_alarms
    then let? valarms := iterate event_alarms in alarms_loop valarms []
    else ret [] in
  let? event_uid := js_get event "uid" in
  let? event_summary := js_get event "summary" in
  let? event_start := js_get event "start" in
  let? event_end := js_get event "end" in
  let? event_description := js_get event "description" in
  let? event_location := js_get event "location" in
  let? getetag := js_get eventData "getetag" in
  let? h := js_get obj "href" in
  let? resolved := resolve_href h baseUrl in
  let? datetype := js_get event "datetype" in
  let? rrule := js_get event "rrule" in
  let? start_tz := js_get event_start "tz" in
  let? end_tz := js_get event_end "tz" in
  ret {| uid := event_uid;
         summary := js_or event_summary (JsStr "Untitled Event");
         start := event_start;
         end_ := event_end;
         description := event_description;
         location := event_location;
         etag := js_or getetag (JsStr "");
         href := resolved;
         wholeDay := strict_eq_str datetype "date";
         recurrenceRule :=
           match rrule with
           | JsUndefined => NoRecurrence
           | _ => RuleObject rrule
           end;
         startTzid := start_tz;
         endTzid := end_tz;
         alarms := alarms |}.

(** The [try] block: [None] is its [continue]. *)
Definition try_block (cleanedCalendarData : string) (eventData obj : JsValue)
    (baseUrl : option string) : result (option Event) :=
  let? jcalData := parseICS cleanedCalendarData in
  let? event := find_VEVENT (jcalData.*2) in
  if negb (truthy event) then ret None else
  let? e := event_of_vevent event eventData obj baseUrl in
  ret (Some e).

Definition event_of_response : option string -> JsValue -> Outcome :=
  response_body try_block.

Definition parseEvents
  : string -> option string -> list Exn -> result (list Event) * list Exn :=
  parseEvents_around try_block.
End WithLibraries.
End NodeIcal.

(** ** The change detector *)

Module ChangeDetector.

(** Modelled from the spec: the order of the result lists of the change
    detector (section 4.4, step 3), which is not among the sources: the hrefs
    of a list of references, each once, in the order first encountered. *)
Fixpoint hrefs_in_order (refs : list EventRef) (seen : gset string) : list string :=
  match refs with
  | [] => []
  | r :: rest =>
      if decide (ref_href r ∈ seen) then hrefs_in_order rest seen
      else ref_href r :: hrefs_in_order rest ({[ref_href r]} ∪ seen)
  end.

(** Modelled from the spec: "index both ref lists by href" (section 4.4,
    step 2) of the change detector, which is not among the sources. *)
Definition index_by_href (refs : list EventRef) : gmap string string :=
  list_to_map ((fun r => (ref_href r, ref_etag r)) <$> refs).

(** Modelled from the spec: the test "present in both with differing etag"
    (section 4.4, step 2) of the change detector, which is not among the
    sources. *)
Definition etag_differs (prevIndex currIndex : gmap string string) (h : string) : bool :=
  match prevIndex !! h, currIndex !! h with
  | Some before, Some now => negb (String.eqb before now)
  | _, _ => false
  end.

(** Modelled from the spec: the change detector itself (section 4.4); the
    sources hold only the [EventRef] and [SyncChangesResult] declarations it
    works on.  Step 1 is the change-tag comparison, steps 2 and 3 the
    classification of the hrefs through the two indexes. *)
Definition detectChanges (prevCtag : string) (prevRefs : list EventRef)
    (currCtag : string) (currRefs : list EventRef) : SyncChangesResult :=
  if String.eqb prevCtag currCtag then
    {| changed := false; newCtag := currCtag;
       newEvents := []; updatedEvents := []; deletedEvents := [] |}
  else
    let prevIndex := index_by_href prevRefs in
    let currIndex := index_by_href currRefs in
    {| changed := true;
       newCtag := currCtag;
       newEvents :=
         filter (fun h => prevIndex !! h = None) (hrefs_in_order currRefs ∅);
       updatedEvents :=
         filter (fun h => etag_differs prevIndex currIndex h = true)
           (hrefs_in_order currRefs ∅);
       deletedEvents :=
         filter (fun h => currIndex !! h = None) (hrefs_in_order prevRefs ∅) |}.

End ChangeDetector.

(** ** Test fixtures: stand-ins for the libraries on a few documents *)

Module Fixtures.

(** Lines joined the way a server that escapes line ends sends them. *)
Fixpoint escaped_lines (ls : list string) : string :=
  match ls with
  | [] => ""
  | [l] => l
  | l :: rest => l ++ "&#13;" ++ escaped_lines rest
  end.

(** The same lines joined by CRLF. *)
Fixpoint crlf_lines (ls : list string) : string :=
  match ls with
  | [] => ""
  | [l] => l
  | l :: rest => l ++ CRLF ++ crlf_lines rest
  end.

(** A stand-in for the host's [toLowerCase] on text in UTF-8: the ASCII
    letters, and the Kelvin sign (bytes 226, 132, 170) lowered to [k]; the
    other characters are left as they are. *)
Definition lower_ascii (c : ascii) : ascii :=
  let n := nat_of_ascii c in
  if (65 <=? n)%nat && (n <=? 90)%nat then ascii_of_nat (n + 32) else c.

Fixpoint lower_case (s : string) : string :=
  match s with
  | EmptyString => EmptyString
  | String "226" (String "132" (String "170" t)) => String "k" (lower_case t)
  | String c t => String (lower_ascii c) (lower_case t)
  end.

Definition KELVIN_SIGN : string :=
  String "226" (String "132" (String "170" EmptyString)).

(** A platform whose XML decoder answers [decoded] and whose URL resolution
    prefixes the base to a string href. *)
Definition decoding (decoded : result JsValue) : Platform :=
  {| XMLParser_parse := fun _ _ => decoded;
     URL_toString := fun href base =>
       match href with
       | JsStr h => ret (JsStr (base ++ h))
       | _ => throw (TypeError "Invalid URL")
       end;
     Date_toString := fun _ => "Invalid Date";
     toLowerCase := lower_case |}.

Definition multistatus (responses : JsValue) : JsValue :=
  JsObj [("multistatus", JsObj [("response", responses)])].

(** A response record of a calendar-query REPORT. *)
Definition event_response (h : string) (getetag : JsValue) (ics : list string)
  : JsValue :=
  JsObj [("href", JsStr h);
         ("propstat",
          JsObj [("prop", JsObj [("getetag", getetag);
                                 ("calendar-data", JsStr (escaped_lines ics))]);
                 ("status", JsStr "HTTP/1.1 200 OK")])].

(** A response record of a PROPFIND on the calendar home. *)
Definition calendar_response (h dn : string) (comps : JsValue) : JsValue :=
  JsObj [("href", JsStr h);
         ("propstat",
          JsObj [("prop", JsObj [("displayname", JsStr dn);
                                 ("getctag", JsStr "ctag-1");
                                 ("supported-calendar-component-set",
                                  JsObj [("comp", comps)])]);
                 ("status", JsStr "HTTP/1.1 200 OK")])].

Definition comp (n : string) : JsValue := JsObj [("name", JsStr n)].

(** Three iCalendar bodies. *)
Definition whole_day_ics : list string :=
  ["BEGIN:VCALENDAR"; "BEGIN:VEVENT"; "UID:whole-day";
   "DTSTART;VALUE=DATE:20240110"; "DTEND;VALUE=DATE:20240112";
   "END:VEVENT"; "END:VCALENDAR"].

Definition email_alarm_ics : list string :=
  ["BEGIN:VCALENDAR"; "BEGIN:VEVENT"; "UID:with-alarms";
   "DTSTART:20240110T090000Z"; "DTEND:20240110T100000Z";
   "BEGIN:VALARM"; "ACTION:EMAIL"; "TRIGGER:-PT15M";
   "ATTENDEE:mailto:a@example.com"; "ATTENDEE:mailto:b@example.com";
   "END:VALARM";
   "BEGIN:VALARM"; "ACTION:EMAIL";
   "ATTENDEE:mailto:a@example.com"; "ATTENDEE:mailto:b@example.com";
   "END:VALARM";
   "BEGIN:VALARM"; "ACTION:PROCEDURE"; "TRIGGER:-PT5M"; "END:VALARM";
   "END:VEVENT"; "END:VCALENDAR"].

Definition malformed_ics : list string :=
  ["BEGIN:VCALENDAR"; "BEGIN:VEVENT"; "UID"].

(** 2024-01-10, 2024-01-11 and 2024-01-12 at midnight UTC, in seconds. *)
Definition jan10 : Z := 1704844800.
Definition jan11 : Z := 1704931200.
Definition jan12 : Z := 1705017600.

Definition text_property (n v : string) : ICAL.Property :=
  ICAL.mkProperty n [] [JsStr v].

(** What ical.js makes of the three bodies. *)
Definition whole_day_component : ICAL.Component :=
  ICAL.mkComponent "vcalendar" []
    [ICAL.mkComponent "vevent"
       [text_property "uid" "whole-day";
        ICAL.mkProperty "dtstart" [] [JsTime true (Some jan10) "2024-01-10"];
        ICAL.mkProperty "dtend" [] [JsTime true (Some jan12) "2024-01-12"]]
       []].

Definition email_with_trigger : ICAL.Component :=
  ICAL.mkComponent "valarm"
    [text_property "action" "EMAIL";
     ICAL.mkProperty "trigger" [] [JsHost "-PT15M"];
     text_property "attendee" "mailto:a@example.com";
     text_property "attendee" "mailto:b@example.com"]
    [].

Definition email_without_trigger : ICAL.Component :=
  ICAL.mkComponent "valarm"
    [text_property "action" "EMAIL";
     text_property "attendee" "mailto:a@example.com";
     text_property "attendee" "mailto:b@example.com"]
    [].

Definition procedure_alarm : ICAL.Component :=
  ICAL.mkComponent "valarm"
    [text_property "action" "PROCEDURE";
     ICAL.mkProperty "trigger" [] [JsHost "-PT5M"]]
    [].

Definition email_alarm_component : ICAL.Component :=
  ICAL.mkComponent "vcalendar" []
    [ICAL.mkComponent "vevent"
       [text_property "uid" "with-alarms";
        ICAL.mkProperty "dtstart" []
          [JsTime false (Some (jan10 + 32400)%Z) "2024-01-10T09:00:00Z"];
        ICAL.mkProperty "dtend" []
          [JsTime false (Some (jan10 + 36000)%Z) "2024-01-10T10:00:00Z"]]
       [email_with_trigger; email_without_trigger; procedure_alarm]].

Definition ical_js : ICAL.Library :=
  {| ICAL.parse := fun text =>
       if String.eqb text (crlf_lines whole_day_ics) then ret whole_day_component
       else if String.eqb text (crlf_lines email_alarm_ics) then ret email_alarm_component
       else throw (LibraryError "invalid ical body");
     ICAL.Recur_fromString := fun _ => throw (LibraryError "invalid recurrence rule");
     ICAL.Time_toJSDate := fun time =>
       match time with
       | JsTime _ unix _ => new_Date (Z.mul 1000 <$> unix)
       | _ => JsUndefined
       end;
     ICAL.Event_endDate_default := fun vevent => ret (ICAL.Event_startDate vevent) |}.

(** What node-ical makes of them: one object per component, keyed by UID;
    a repeated property becomes an array. *)
Definition whole_day_object : JsValue :=
  JsObj [("type", JsStr "VEVENT"); ("uid", JsStr "whole-day");
         ("datetype", JsStr "date");
         ("start", JsDate (Some (jan10 * 1000)%Z) JsUndefined);
         ("end", JsDate (Some (jan12 * 1000)%Z) JsUndefined)].

Definition email_with_trigger_object : JsValue :=
  JsObj [("type", JsStr "VALARM"); ("action", JsStr "EMAIL");
         ("trigger", JsStr "-PT15M");
         ("attendee", JsArr [JsStr "mailto:a@example.com";
                             JsStr "mailto:b@example.com"])].

Definition email_without_trigger_object : JsValue :=
  JsObj [("type", JsStr "VALARM"); ("action", JsStr "EMAIL");
         ("attendee", JsArr [JsStr "mailto:a@example.com";
                             JsStr "mailto:b@example.com"])].

Definition procedure_alarm_object : JsValue :=
  JsObj [("type", JsStr "VALARM"); ("action", JsStr "PROCEDURE");
         ("trigger", JsStr "-PT5M")].

Definition email_alarm_object : JsValue :=
  JsObj [("type", JsStr "VEVENT"); ("uid", JsStr "with-alarms");
         ("datetype", JsStr "date-time");
         ("start", JsDate (Some ((jan10 + 32400) * 1000)%Z) JsUndefined);
         ("end", JsDate (Some ((jan10 + 36000) * 1000)%Z) JsUndefined);
         ("alarms", JsArr [email_with_trigger_object;
                           email_without_trigger_object;
                           procedure_alarm_object])].

Definition node_ical : NodeIcal.Library :=
  {| NodeIcal.parseICS := fun text =>
       if String.eqb text (crlf_lines whole_day_ics)
       then ret [("whole-day", whole_day_object)]
       else if String.eqb text (crlf_lines email_alarm_ics)
       then ret [("with-alarms", email_alarm_object)]
       else throw (LibraryError "invalid ical body") |}.

(** A collection of ten records, the fourth of them corrupt. *)
Definition ten_records : list JsValue :=
  [event_response "/cal/1.ics" (JsStr "e1") whole_day_ics;
   event_response "/cal/2.ics" (JsStr "e2") email_alarm_ics;
   event_response "/cal/3.ics" (JsStr "e3") whole_day_ics;
   event_response "/cal/4.ics" (JsStr "e4") malformed_ics;
   event_response "/cal/5.ics" (JsStr "e5") whole_day_ics;
   event_response "/cal/6.ics" (JsStr "e6") email_alarm_ics;
   event_response "/cal/7.ics" (JsStr "e7") whole_day_ics;
   event_response "/cal/8.ics" (JsStr "e8") whole_day_ics;
   event_response "/cal/9.ics" (JsStr "e9") email_alarm_ics;
   event_response "/cal/10.ics" (JsStr "e10") whole_day_ics].

Definition ten_records_platform : Platform :=
  decoding (ret (multistatus (JsArr ten_records))).

(** Two records: one without getetag, one whose getetag text is all digits
    and was decoded as a number. *)
Definition etag_records : list JsValue :=
  [event_response "/cal/a.ics" JsUndefined whole_day_ics;
   event_response "/cal/b.ics" (JsNum 42) whole_day_ics].

Definition etag_platform : Platform :=
  decoding (ret (multistatus (JsArr etag_records))).

(** The event the ical.js variant builds from [whole_day_ics]. *)
Definition whole_day_event (h : string) (tag : JsValue) : Event :=
  {| uid := JsStr "whole-day";
     summary := JsStr "Untitled Event";
     start := JsDate (Some (jan10 * 1000)%Z) JsUndefined;
     end_ := JsDate (Some (jan11 * 1000)%Z) JsUndefined;
     description := JsUndefined;
     location := JsUndefined;
     etag := tag;
     href := JsStr h;
     wholeDay := true;
     recurrenceRule := NoRecurrence;
     startTzid := JsUndefined;
     endTzid := JsUndefined;
     alarms := [] |}.

(** A calendar home with a calendar for events and tasks and a task list. *)
Definition work_response : JsValue :=
  calendar_response "/cal/work/" "Work" (JsArr [comp "VEVENT"; comp "VTODO"]).

Definition tasks_response : JsValue :=
  calendar_response "/cal/tasks/" "Tasks" (comp "VTODO").

(** One record, the whole-day event. *)
Definition whole_day_platform : Platform :=
  decoding (ret (multistatus (event_response "/cal/1.ics" (JsStr "e1") whole_day_ics))).

(** One record, the event with the three alarms. *)
Definition alarms_platform : Platform :=
  decoding (ret (multistatus (event_response "/cal/2.ics" (JsStr "e2") email_alarm_ics))).

Definition calendars_platform : Platform :=
  decoding (ret (multistatus (JsArr [work_response; tasks_response]))).

End Fixtures.

(** ** The two variants side by side *)

Inductive Backend : Type := ical_js | node_ical.

Section Variants.
Context {P : Platform} {L : ICAL.Library} {N : NodeIcal.Library}.

Definition try_block_of (v : Backend)
  : string -> JsValue -> JsValue -> option string -> result (option Event) :=
  match v with
  | ical_js => IcalJs.try_block
  | node_ical => NodeIcal.try_block
  end.

Definition parseEvents_of (v : Backend)
  : string -> option string -> list Exn -> result (list Event) * list Exn :=
  match v with
  | ical_js => IcalJs.parseEvents
  | node_ical => NodeIcal.parseEvents
  end.
End Variants.

(** ** Predicates of the statements *)

Definition fails {A} (r : result A) : Prop := exists error, r = inl error.

(** A record with a calendar-data text on which the [try] block throws: the
    text does not parse, or the extraction of a field throws. *)
Definition throws_inside_try
    (try_block : string -> JsValue -> JsValue -> option string -> result (option Event))
    (baseUrl : option string) (obj : JsValue) : Prop :=
  exists propstat raw error,
    js_get obj "propstat" = inr propstat /\
    own_property (opt_get propstat "prop") "calendar-data" = JsStr raw /\
    raw <> "" /\
    try_block (replace_cr_entity raw) (opt_get propstat "prop") obj baseUrl = inl error.

(** A record from which the loop body pushes an event. *)
Definition yields_event
    (try_block : string -> JsValue -> JsValue -> option string -> result (option Event))
    (baseUrl : option string) (obj : JsValue) : Prop :=
  exists event, response_body try_block baseUrl obj = Push event.

(** The decoder throws on the document. *)
Definition undecodable `{Platform} (opts : XMLParserOptions) (responseData : string)
  : Prop :=
  fails (XMLParser_parse opts responseData).

(** The decoded document has no [multistatus]. *)
Definition lacks_multistatus `{Platform} (opts : XMLParserOptions)
    (responseData : string) : Prop :=
  exists jsonData,
    XMLParser_parse opts responseData = inr jsonData /\
    nullish (opt_get jsonData "multistatus") = true.

(** The decoded [multistatus] has no [response] (or an empty one). *)
Definition lacks_response `{Platform} (opts : XMLParserOptions)
    (responseData : string) : Prop :=
  exists jsonData multistatus response,
    XMLParser_parse opts responseData = inr jsonData /\
    js_get jsonData "multistatus" = inr multistatus /\
    js_get multistatus "response" = inr response /\
    truthy response = false.

(** [eventData["getetag"]] of a response record. *)
Definition getetag_of (obj : JsValue) : JsValue :=
  own_property (opt_get (own_property obj "propstat") "prop") "getetag".

(** The action values for which an alarm is built. *)
Definition known_actions : list JsValue :=
  [JsStr "DISPLAY"; JsStr "EMAIL"; JsStr "AUDIO"].

(** A time value within the range of a [Date]. *)
Definition in_Date_range (t : Z) : Prop := (Z.abs t <= 8640000000000000)%Z.

(** [eventData["calendar-data"]] of a response record. *)
Definition calendar_data_of (obj : JsValue) : JsValue :=
  own_property (opt_get (own_property obj "propstat") "prop") "calendar-data".

(** A response record parseEvents can take a turn on: an object whose
    calendar-data, if there is any, is a string. *)
Definition well_shaped (obj : JsValue) : bool :=
  negb (nullish obj) &&
  (negb (truthy (calendar_data_of obj)) || is_string (calendar_data_of obj)).

(** The records parseEvents loops over: none when [response] is falsy. *)
Definition response_records (response : JsValue) : list JsValue :=
  if truthy response then as_array response else [].

(** An optional field as [e || undefined] leaves it. *)
Definition undefined_or_truthy (v : JsValue) : Prop :=
  v = JsUndefined \/ truthy v = true.

(** An event with its href replaced. *)
Definition with_href (event : Event) (h : JsValue) : Event :=
  {| uid := uid event; summary := summary event; start := start event;
     end_ := end_ event; description := description event;
     location := location event; etag := etag event; href := h;
     wholeDay := wholeDay event; recurrenceRule := recurrenceRule event;
     startTzid := startTzid event; endTzid := endTzid event;
     alarms := alarms event |}.

(** A calendar with its url replaced. *)
Definition with_url (calendar : Calendar) (u : JsValue) : Calendar :=
  {| displayName := displayName calendar; url := u; ctag := ctag calendar;
     supportedComponents := supportedComponents calendar |}.

(** The test of [propstats.find] on a propstat that is an object. *)
Definition status_is_ok `{Platform} (p : JsValue) : bool :=
  match own_property p "status" with
  | JsStr s => includes (toLowerCase s) "200 ok"
  | _ => false
  end.

(** The summary the back-end delivers for the calendar-data of a record:
    over ical.js [icalEvent.summary], the first value of the SUMMARY of the
    first VEVENT of the parsed text; over node-ical [event.summary] of the
    first object of type VEVENT. *)
Definition delivered_summary `{ICAL.Library, NodeIcal.Library}
    (v : Backend) (obj : JsValue) : option JsValue :=
  match calendar_data_of obj with
  | JsStr raw =>
      match v with
      | ical_js =>
          match ICAL.parse (replace_cr_entity raw) with
          | inr vcalendar =>
              ICAL.Event_summary <$> ICAL.getFirstSubcomponent vcalendar "vevent"
          | inl _ => None
          end
      | node_ical =>
          match NodeIcal.parseICS (replace_cr_entity raw) with
          | inr jcalData =>
              match NodeIcal.find_VEVENT (jcalData.*2) with
              | inr event => Some (own_property event "summary")
              | inl _ => None
              end
          | inl _ => None
          end
      end
  | _ => None
  end.

(** The document decodes to a [multistatus] whose [response] gives these
    records. *)
Definition decodes_to `{Platform} (opts : XMLParserOptions) (responseData : string)
    (records : list JsValue) : Prop :=
  exists jsonData multistatus response,
    XMLParser_parse opts responseData = inr jsonData /\
    js_get jsonData "multistatus" = inr multistatus /\
    js_get multistatus "response" = inr response /\
    response_records response = records.

(** The document decodes to a [multistatus] with this [response]. *)
Definition decodes_with_response `{Platform} (opts : XMLParserOptions)
    (responseData : string) (response : JsValue) : Prop :=
  exists jsonData multistatus,
    XMLParser_parse opts responseData = inr jsonData /\
    js_get jsonData "multistatus" = inr multistatus /\
    js_get multistatus "response" = inr response.

(** ** More fixtures *)

Module Documents.

(** A platform that decodes the documents of a table and throws on any
    other. *)
Fixpoint lookup_document (docs : list (string * JsValue)) (responseData : string)
  : result JsValue :=
  match docs with
  | [] => throw (LibraryError "unexpected document")
  | (name, tree) :: rest =>
      if String.eqb responseData name then ret tree
      else lookup_document rest responseData
  end.

Definition serving (docs : list (string * JsValue)) : Platform :=
  {| XMLParser_parse := fun _ responseData => lookup_document docs responseData;
     URL_toString := fun href base =>
       match href with
       | JsStr h =>
           if String.prefix "/" h then ret (JsStr (base ++ h))
           else throw (TypeError "Invalid URL")
       | _ => throw (TypeError "Invalid URL")
       end;
     Date_toString := fun _ => "Invalid Date";
     toLowerCase := Fixtures.lower_case |}.

(** A record without calendar-data, and one with two propstat elements. *)
Definition collection_record : JsValue :=
  JsObj [("href", JsStr "/cal/");
         ("propstat", JsObj [("prop", JsObj [("getetag", JsStr "c1")]);
                             ("status", JsStr "HTTP/1.1 200 OK")])].

Definition two_propstat_record : JsValue :=
  JsObj [("href", JsStr "/cal/p.ics");
         ("propstat",
          JsArr [JsObj [("prop", JsObj [("getetag", JsStr "p1");
                                        ("calendar-data",
                                         JsStr (Fixtures.escaped_lines Fixtures.whole_day_ics))]);
                        ("status", JsStr "HTTP/1.1 200 OK")];
                 JsObj [("prop", JsObj [("getcontenttype", JsStr "")]);
                        ("status", JsStr "HTTP/1.1 404 Not Found")]])].

(** A record whose calendar-data was decoded as a number. *)
Definition numeric_data_record : JsValue :=
  JsObj [("href", JsStr "/cal/n.ics");
         ("propstat", JsObj [("prop", JsObj [("calendar-data", JsNum 20240110)])])].

(** A record whose href the URL constructor of the fixture rejects. *)
Definition odd_href_record : JsValue :=
  Fixtures.event_response "cal 1.ics" (JsStr "o1") Fixtures.whole_day_ics.

Definition first_batch : list JsValue :=
  [Fixtures.event_response "/cal/a.ics" (JsStr "a1") Fixtures.whole_day_ics;
   Fixtures.event_response "/cal/b.ics" (JsStr "b1") Fixtures.malformed_ics].

Definition second_batch : list JsValue :=
  [collection_record;
   Fixtures.event_response "/cal/d.ics" (JsStr "d1") Fixtures.whole_day_ics].

Definition batches : Platform :=
  serving [("first", Fixtures.multistatus (JsArr first_batch));
           ("second", Fixtures.multistatus (JsArr second_batch));
           ("both", Fixtures.multistatus (JsArr (first_batch ++ second_batch)));
           ("numeric",
            Fixtures.multistatus (JsArr (first_batch ++ [numeric_data_record])))].

(** The VEVENT of the whole-day fixture, one of a single day, and one whose
    DTEND ical.js could not read as a time. *)
Definition whole_day_vevent : ICAL.Component :=
  ICAL.mkComponent "vevent"
    [Fixtures.text_property "uid" "whole-day";
     ICAL.mkProperty "dtstart" [] [JsTime true (Some Fixtures.jan10) "2024-01-10"];
     ICAL.mkProperty "dtend" [] [JsTime true (Some Fixtures.jan12) "2024-01-12"]]
    [].

Definition single_day_vevent : ICAL.Component :=
  ICAL.mkComponent "vevent"
    [Fixtures.text_property "uid" "single-day";
     ICAL.mkProperty "dtstart" [] [JsTime true (Some Fixtures.jan10) "2024-01-10"];
     ICAL.mkProperty "dtend" [] [JsTime true (Some Fixtures.jan11) "2024-01-11"]]
    [].

Definition unreadable_end_vevent : ICAL.Component :=
  ICAL.mkComponent "vevent"
    [Fixtures.text_property "uid" "unreadable-end";
     ICAL.mkProperty "dtstart" []
       [JsTime false (Some Fixtures.jan10) "2024-01-10T00:00:00Z"];
     ICAL.mkProperty "dtend" [] [JsTime false None "NaN-NaN-NaNTNaN:NaN:NaN"]]
    [].

(** The [prop] and the record the three are tried with. *)
Definition plain_prop : JsValue := JsObj [("getetag", JsStr "e1")].

Definition plain_record : JsValue :=
  JsObj [("href", JsStr "/cal/1.ics"); ("propstat", JsObj [("prop", plain_prop)])].

(** An EMAIL alarm with an attendee that is not a string, and the node-ical
    object of an EMAIL alarm with one attendee that has parameters. *)
Definition email_with_odd_attendee : ICAL.Component :=
  ICAL.mkComponent "valarm"
    [Fixtures.text_property "action" "EMAIL";
     ICAL.mkProperty "trigger" [] [JsHost "-PT15M"];
     Fixtures.text_property "attendee" "mailto:a@example.com";
     ICAL.mkProperty "attendee" [] [JsNum 5];
     Fixtures.text_property "attendee" "mailto:b@example.com"]
    [].

Definition email_with_parameters_object : JsValue :=
  JsObj [("type", JsStr "VALARM"); ("action", JsStr "EMAIL");
         ("trigger", JsStr "-PT15M");
         ("attendee", JsObj [("params", JsObj [("CN", JsStr "A")]);
                             ("val", JsStr "mailto:a@example.com")])].

(** An ical.js that reads two bodies with an RRULE, and accepts the rule of
    the first only. *)
Definition rrule_vcalendar (rule : string) : ICAL.Component :=
  ICAL.mkComponent "vcalendar" []
    [ICAL.mkComponent "vevent"
       [Fixtures.text_property "uid" "repeating";
        ICAL.mkProperty "dtstart" []
          [JsTime false (Some Fixtures.jan10) "2024-01-10T00:00:00Z"];
        ICAL.mkProperty "rrule" [] [JsHost rule]]
       []].

Definition hourly_twice : ICAL.Recur :=
  {| ICAL.freq := Some ICAL.HOURLY; ICAL.interval := 2; ICAL.count := Some 0%Z;
     ICAL.until := None; ICAL.BYDAY := Some ["MO"; "TU"];
     ICAL.BYMONTHDAY := None; ICAL.BYMONTH := None |}.

Definition rrule_ical_js : ICAL.Library :=
  {| ICAL.parse := fun text =>
       if String.eqb text "hourly" then ret (rrule_vcalendar "FREQ=HOURLY;INTERVAL=2")
       else if String.eqb text "sometimes" then ret (rrule_vcalendar "FREQ=SOMETIMES")
       else throw (LibraryError "invalid ical body");
     ICAL.Recur_fromString := fun rule =>
       if String.eqb rule "FREQ=HOURLY;INTERVAL=2" then ret hourly_twice
       else throw (LibraryError "invalid frequency value");
     ICAL.Time_toJSDate := fun _ => JsUndefined;
     ICAL.Event_endDate_default := fun vevent => ret (ICAL.Event_startDate vevent) |}.

(** A calendar home decoded with one response element, and the same with
    the element in a list; a record with a failed propstat before the
    successful one and a null after it. *)
Definition lone_calendar : Platform :=
  serving [("lone", Fixtures.multistatus Fixtures.work_response);
           ("listed", Fixtures.multistatus (JsArr [Fixtures.work_response]));
           ("home", Fixtures.multistatus
                      (JsArr [Fixtures.tasks_response; Fixtures.work_response]))].

Definition failed_propstat : JsValue :=
  JsObj [("prop", JsObj [("getcontenttype", JsStr "")]);
         ("status", JsStr "HTTP/1.1 404 Not Found")].

Definition found_propstat : JsValue :=
  JsObj [("prop", JsObj [("getctag", JsStr "ctag-7");
                         ("supported-calendar-component-set",
                          JsObj [("comp", Fixtures.comp "VEVENT")])]);
         ("status", JsStr "http/1.1 200 ok")].

(** A propstat whose status ends in the Kelvin sign instead of the letter K. *)
Definition kelvin_propstat : JsValue :=
  JsObj [("prop", JsObj [("getctag", JsStr "ctag-8");
                         ("supported-calendar-component-set",
                          JsObj [("comp", Fixtures.comp "VEVENT")])]);
         ("status", JsStr ("HTTP/1.1 200 O" ++ Fixtures.KELVIN_SIGN))].

Definition record_without_propstat : JsValue := JsObj [("href", JsStr "/cal/x/")].

(** A record whose calendar-data is a VTODO, and what the two libraries make
    of that text. *)
Definition todo_ics : list string :=
  ["BEGIN:VCALENDAR"; "BEGIN:VTODO"; "UID:todo"; "END:VTODO"; "END:VCALENDAR"].

Definition todo_record : JsValue :=
  Fixtures.event_response "/cal/todo.ics" (JsStr "t1") todo_ics.

Definition todo_ical_js : ICAL.Library :=
  {| ICAL.parse := fun text =>
       if String.eqb text (Fixtures.crlf_lines todo_ics)
       then ret (ICAL.mkComponent "vcalendar" []
                   [ICAL.mkComponent "vtodo" [Fixtures.text_property "uid" "todo"] []])
       else throw (LibraryError "invalid ical body");
     ICAL.Recur_fromString := fun _ => throw (LibraryError "invalid recurrence rule");
     ICAL.Time_toJSDate := fun _ => JsUndefined;
     ICAL.Event_endDate_default := fun vevent => ret (ICAL.Event_startDate vevent) |}.

Definition todo_node_ical : NodeIcal.Library :=
  {| NodeIcal.parseICS := fun text =>
       if String.eqb text (Fixtures.crlf_lines todo_ics)
       then ret [("vcalendar", JsObj [("type", JsStr "VCALENDAR")]);
                 ("todo", JsObj [("type", JsStr "VTODO"); ("uid", JsStr "todo")])]
       else throw (LibraryError "invalid ical body") |}.

(** Ten records: the nine valid ones of [Fixtures.ten_records], and in the
    place of the fourth a record whose calendar-data is made of digits and
    was decoded as a number. *)
Definition nine_records : list JsValue :=
  take 3 Fixtures.ten_records ++ drop 4 Fixtures.ten_records.

Definition ten_with_numeric : list JsValue :=
  take 3 Fixtures.ten_records ++ numeric_data_record :: drop 4 Fixtures.ten_records.

Definition nine_records_platform : Platform :=
  Fixtures.decoding (ret (Fixtures.multistatus (JsArr nine_records))).

Definition ten_with_numeric_platform : Platform :=
  Fixtures.decoding (ret (Fixtures.multistatus (JsArr ten_with_numeric))).

(** Three records whose getetag the decoder delivers as a number: the texts
    42 and 0, made of digits, and one read as NaN. *)
Definition number_etag_records : list JsValue :=
  [Fixtures.event_response "/cal/b.ics" (JsNum 42) Fixtures.whole_day_ics;
   Fixtures.event_response "/cal/c.ics" (JsNum 0) Fixtures.whole_day_ics;
   Fixtures.event_response "/cal/d.ics" (JsNum NaN) Fixtures.whole_day_ics].

Definition number_etag_platform : Platform :=
  Fixtures.decoding (ret (Fixtures.multistatus (JsArr number_etag_records))).

(** Three records: an event with a SUMMARY, one with an empty SUMMARY and
    one without (the whole-day fixture), and what the two libraries make of
    the texts. *)
Definition titled_ics : list string :=
  ["BEGIN:VCALENDAR"; "BEGIN:VEVENT"; "UID:titled"; "SUMMARY:Standup";
   "DTSTART:20240110T090000Z"; "DTEND:20240110T100000Z";
   "END:VEVENT"; "END:VCALENDAR"].

Definition blank_title_ics : list string :=
  ["BEGIN:VCALENDAR"; "BEGIN:VEVENT"; "UID:blank"; "SUMMARY:";
   "DTSTART:20240110T090000Z"; "DTEND:20240110T100000Z";
   "END:VEVENT"; "END:VCALENDAR"].

Definition titled_records : list JsValue :=
  [Fixtures.event_response "/cal/t.ics" (JsStr "t1") titled_ics;
   Fixtures.event_response "/cal/s.ics" (JsStr "s1") blank_title_ics;
   Fixtures.event_response "/cal/u.ics" (JsStr "u1") Fixtures.whole_day_ics].

Definition titled_platform : Platform :=
  Fixtures.decoding (ret (Fixtures.multistatus (JsArr titled_records))).

Definition titled_vcalendar (id title : string) : ICAL.Component :=
  ICAL.mkComponent "vcalendar" []
    [ICAL.mkComponent "vevent"
       [Fixtures.text_property "uid" id;
        Fixtures.text_property "summary" title;
        ICAL.mkProperty "dtstart" []
          [JsTime false (Some (Fixtures.jan10 + 32400)%Z) "2024-01-10T09:00:00Z"];
        ICAL.mkProperty "dtend" []
          [JsTime false (Some (Fixtures.jan10 + 36000)%Z) "2024-01-10T10:00:00Z"]]
       []].

Definition titled_ical_js : ICAL.Library :=
  {| ICAL.parse := fun text =>
       if String.eqb text (Fixtures.crlf_lines titled_ics)
       then ret (titled_vcalendar "titled" "Standup")
       else if String.eqb text (Fixtures.crlf_lines blank_title_ics)
       then ret (titled_vcalendar "blank" "")
       else if String.eqb text (Fixtures.crlf_lines Fixtures.whole_day_ics)
       then ret Fixtures.whole_day_component
       else throw (LibraryError "invalid ical body");
     ICAL.Recur_fromString := fun _ => throw (LibraryError "invalid recurrence rule");
     ICAL.Time_toJSDate := fun _ => JsUndefined;
     ICAL.Event_endDate_default := fun vevent => ret (ICAL.Event_startDate vevent) |}.

Definition titled_object (id title : string) : JsValue :=
  JsObj [("type", JsStr "VEVENT"); ("uid", JsStr id); ("summary", JsStr title);
         ("datetype", JsStr "date-time");
         ("start", JsDate (Some ((Fixtures.jan10 + 32400) * 1000)%Z) JsUndefined);
         ("end", JsDate (Some ((Fixtures.jan10 + 36000) * 1000)%Z) JsUndefined)].

Definition titled_node_ical : NodeIcal.Library :=
  {| NodeIcal.parseICS := fun text =>
       if String.eqb text (Fixtures.crlf_lines titled_ics)
       then ret [("titled", titled_object "titled" "Standup")]
       else if String.eqb text (Fixtures.crlf_lines blank_title_ics)
       then ret [("blank", titled_object "blank" "")]
       else if String.eqb text (Fixtures.crlf_lines Fixtures.whole_day_ics)
       then ret [("whole-day", Fixtures.whole_day_object)]
       else throw (LibraryError "invalid ical body") |}.

(** Two records whose DTEND is no date, so that ical.js reads its time as
    NaN: a timed event and a whole-day event. *)
Definition unreadable_end_ics : list string :=
  ["BEGIN:VCALENDAR"; "BEGIN:VEVENT"; "UID:unreadable-end";
   "DTSTART:20240110T000000Z"; "DTEND:later";
   "END:VEVENT"; "END:VCALENDAR"].

Definition unreadable_day_ics : list string :=
  ["BEGIN:VCALENDAR"; "BEGIN:VEVENT"; "UID:unreadable-day";
   "DTSTART;VALUE=DATE:20240110"; "DTEND;VALUE=DATE:tomorrow";
   "END:VEVENT"; "END:VCALENDAR"].

Definition unreadable_day_vevent : ICAL.Component :=
  ICAL.mkComponent "vevent"
    [Fixtures.text_property "uid" "unreadable-day";
     ICAL.mkProperty "dtstart" [] [JsTime true (Some Fixtures.jan10) "2024-01-10"];
     ICAL.mkProperty "dtend" [] [JsTime true None "NaN-NaN-NaN"]]
    [].

Definition unreadable_end_record : JsValue :=
  Fixtures.event_response "/cal/n.ics" (JsStr "n1") unreadable_end_ics.

Definition unreadable_day_record : JsValue :=
  Fixtures.event_response "/cal/f.ics" (JsStr "f1") unreadable_day_ics.

Definition invalid_end_ical_js : ICAL.Library :=
  {| ICAL.parse := fun text =>
       if String.eqb text (Fixtures.crlf_lines unreadable_end_ics)
       then ret (ICAL.mkComponent "vcalendar" [] [unreadable_end_vevent])
       else if String.eqb text (Fixtures.crlf_lines unreadable_day_ics)
       then ret (ICAL.mkComponent "vcalendar" [] [unreadable_day_vevent])
       else throw (LibraryError "invalid ical body");
     ICAL.Recur_fromString := fun _ => throw (LibraryError "invalid recurrence rule");
     ICAL.Time_toJSDate := fun _ => JsUndefined;
     ICAL.Event_endDate_default := fun vevent => ret (ICAL.Event_startDate vevent) |}.

End Documents.

(** * Properties *)

Local Open Scope list_scope.

(** Splitting a successful [let?] into its two steps. *)
Ltac bind_inv H :=
  match type of H with
  | bind ?m _ = inr _ =>
      let E := fresh "E" in
      destruct m eqn:E; cbn [bind] in H; [discriminate H |]
  end.

Lemma bind_inr {A B} (m : result A) (k : A -> result B) (b : B) :
  bind m k = inr b -> exists a, m = inr a /\ k a = inr b.
Proof. destruct m as [e | a]; cbn; [discriminate | eauto]. Qed.

(** ** The string helpers on examples *)

Example replace_cr_entity_example :
  replace_cr_entity "BEGIN:VEVENT&#13;UID:1&#13;END:VEVENT"
  = ("BEGIN:VEVENT" ++ CRLF ++ "UID:1" ++ CRLF ++ "END:VEVENT")%string.
Proof. reflexivity. Qed.

Example status_match_example :
  includes (Fixtures.lower_case "HTTP/1.1 200 OK") "200 ok" = true /\
  includes (Fixtures.lower_case "HTTP/1.1 404 Not Found") "200 ok" = false /\
  includes (Fixtures.lower_case ("HTTP/1.1 200 O" ++ Fixtures.KELVIN_SIGN)%string)
    "200 ok" = true.
Proof. repeat split; vm_compute; reflexivity. Qed.

Example js_toString_array_example :
  @js_toString Fixtures.ten_records_platform
    (JsArr [JsStr "a"; JsNull; JsNum 7; JsObj []])
  = "a,,7,[object Object]".
Proof. vm_compute. reflexivity. Qed.

(** ** The loop over the response records *)

Section EventsLoop.
Variable body : JsValue -> Outcome.

(** Whether the loop returns, and what, is independent of the console. *)
Lemma events_loop_console (response : list JsValue) :
  forall events c1 c2,
    (events_loop body response events c1).1 = (events_loop body response events c2).1.
Proof.
  induction response as [| obj rest IH]; intros events c1 c2; cbn; [done |].
  destruct (body obj); cbn; auto.
Qed.

(** What the loop logs is appended to the console it found. *)
Lemma events_loop_logs (response : list JsValue) :
  forall events c,
    (events_loop body response events c).2
    = c ++ (events_loop body response events []).2.
Proof.
  induction response as [| obj rest IH]; intros events c; cbn.
  - by rewrite app_nil_r.
  - destruct (body obj) as [| event | error | error]; cbn; auto.
    + rewrite (IH events (c ++ [error])), (IH events [error]).
      by rewrite app_assoc.
    + by rewrite app_nil_r.
Qed.

(** A record whose exception is caught leaves the events as they were. *)
Lemma events_loop_skip (before after : list JsValue) (bad : JsValue) (error : Exn) :
  body bad = Caught error ->
  forall events c,
    (events_loop body (before ++ bad :: after) events c).1
    = (events_loop body (before ++ after) events c).1.
Proof.
  intros Hbad. induction before as [| obj rest IH]; intros events c; cbn.
  - rewrite Hbad. apply events_loop_console.
  - destruct (body obj); cbn; auto.
Qed.

(** Records that all yield an event are all pushed, in order. *)
Lemma events_loop_all_pushed (response : list JsValue) :
  Forall (fun obj => exists event, body obj = Push event) response ->
  forall events c,
    exists pushed,
      events_loop body response events c = (inr (events ++ pushed), c) /\
      length pushed = length response.
Proof.
  induction 1 as [| obj rest [event Hobj] _ IH]; intros events c; cbn.
  - exists []. by rewrite app_nil_r.
  - rewrite Hobj. destruct (IH (events ++ [event]) c) as (pushed & -> & Hlen).
    exists (event :: pushed). rewrite <- app_assoc. cbn. by rewrite Hlen.
Qed.
End EventsLoop.

(** ** parseEvents around any [try] block *)

Section Around.
Context {P : Platform}.
Variable try_block :
  string -> JsValue -> JsValue -> option string -> result (option Event).

Lemma throws_inside_try_caught (baseUrl : option string) (obj : JsValue) :
  throws_inside_try try_block baseUrl obj ->
  exists error, response_body try_block baseUrl obj = Caught error.
Proof.
  intros (propstat & raw & error & Hps & Hraw & Hne & Htry).
  exists error. unfold response_body. rewrite Hps.
  destruct (opt_get propstat "prop") eqn:Hprop; cbn in Hraw; try discriminate Hraw.
  cbn. rewrite Hraw. cbn.
  destruct (String.eqb_spec raw ""); [done |]. cbn. by rewrite Htry.
Qed.

(** The loop is reached exactly when the decoded document has a truthy
    [multistatus.response]. *)
Lemma parseEvents_around_loop (responseData : string) (baseUrl : option string)
    (console : list Exn) (jsonData multistatus response : JsValue) :
  XMLParser_parse eventOptions responseData = inr jsonData ->
  js_get jsonData "multistatus" = inr multistatus ->
  js_get multistatus "response" = inr response ->
  truthy response = true ->
  parseEvents_around try_block responseData baseUrl console
  = events_loop (response_body try_block baseUrl) (as_array response) [] console.
Proof.
  intros Hxml Hms Hresp Htruthy. unfold parseEvents_around.
  rewrite Hxml. cbn. rewrite Hms. cbn. rewrite Hresp, Htruthy. done.
Qed.

Lemma parseEvents_around_undecodable responseData baseUrl console :
  undecodable eventOptions responseData ->
  fails (parseEvents_around try_block responseData baseUrl console).1.
Proof.
  intros [error Hxml]. exists error. unfold parseEvents_around. by rewrite Hxml.
Qed.

Lemma parseEvents_around_no_multistatus responseData baseUrl console :
  lacks_multistatus eventOptions responseData ->
  fails (parseEvents_around try_block responseData baseUrl console).1.
Proof.
  intros (jsonData & Hxml & Hnull). unfold parseEvents_around, fails.
  rewrite Hxml. cbn. unfold js_get, opt_get in *.
  destruct (nullish jsonData); cbn; [eauto |].
  rewrite Hnull. cbn. eauto.
Qed.

Lemma parseEvents_around_no_response responseData baseUrl console :
  lacks_response eventOptions responseData ->
  parseEvents_around try_block responseData baseUrl console = (inr [], console).
Proof.
  intros (jsonData & multistatus & response & Hxml & Hms & Hresp & Hfalsy).
  unfold parseEvents_around. rewrite Hxml. cbn. rewrite Hms. cbn.
  by rewrite Hresp, Hfalsy.
Qed.
End Around.

Lemma parseEvents_of_around `{Platform, ICAL.Library, NodeIcal.Library} (v : Backend) :
  parseEvents_of v = parseEvents_around (try_block_of v).
Proof. by destruct v. Qed.

(** What the [try] does catch: a record with a calendar-data text on which
    the [try] block throws (the text does not parse, or a field extraction
    throws) is skipped and nothing escapes; in either variant parseEvents
    returns what the loop returns on the remaining records, and when each of
    those yields an event it returns as many events as there are remaining
    records. *)
Lemma malformed_record_is_skipped
    `{Platform, ICAL.Library, NodeIcal.Library} (v : Backend)
    (responseData : string) (baseUrl : option string) (console : list Exn)
    (jsonData multistatus bad : JsValue) (before after : list JsValue) :
  XMLParser_parse eventOptions responseData = inr jsonData ->
  js_get jsonData "multistatus" = inr multistatus ->
  js_get multistatus "response" = inr (JsArr (before ++ bad :: after)) ->
  throws_inside_try (try_block_of v) baseUrl bad ->
  (parseEvents_of v responseData baseUrl console).1
  = (events_loop (response_body (try_block_of v) baseUrl) (before ++ after) [] console).1
  /\ (Forall (yields_event (try_block_of v) baseUrl) (before ++ after) ->
      exists events,
        (parseEvents_of v responseData baseUrl console).1 = inr events /\
        length events = (length before + length after)%nat).
Proof.
  intros Hxml Hms Hresp Hbad.
  destruct (throws_inside_try_caught _ _ _ Hbad) as [error Hcaught].
  assert (Hrun : (parseEvents_of v responseData baseUrl console).1
    = (events_loop (response_body (try_block_of v) baseUrl) (before ++ after) [] console).1).
  { rewrite parseEvents_of_around.
    rewrite (parseEvents_around_loop _ _ _ _ _ _ _ Hxml Hms Hresp).
    - cbn. by apply events_loop_skip with (error := error).
    - done. }
  split; [exact Hrun |].
  intros Hvalid. rewrite Hrun.
  destruct (events_loop_all_pushed _ _ Hvalid [] console) as (pushed & -> & Hlen).
  exists pushed. split; [done |]. by rewrite Hlen, length_app.
Qed.

(** C2 fails on ten response records of which exactly one has malformed
    calendar-data, namely a text made of digits, which the XML decoder
    delivers as a number: [rawCalendarData.replace] is called before the
    [try] is entered, so the TypeError is not caught, nothing is logged, and
    parseEvents rejects in either variant instead of returning at least nine
    events.  The nine other records alone give nine events. *)
Theorem numeric_calendar_data_rejects_the_batch :
  length Documents.ten_with_numeric = 10%nat /\
  @parseEvents_of Documents.ten_with_numeric_platform Fixtures.ical_js Fixtures.node_ical
    ical_js "" None []
  = (inl (TypeError "rawCalendarData.replace is not a function"), []) /\
  @parseEvents_of Documents.ten_with_numeric_platform Fixtures.ical_js Fixtures.node_ical
    node_ical "" None []
  = (inl (TypeError "rawCalendarData.replace is not a function"), []) /\
  (exists events,
     @parseEvents_of Documents.nine_records_platform Fixtures.ical_js Fixtures.node_ical
       ical_js "" None [] = (inr events, []) /\
     length events = 9%nat) /\
  (exists events,
     @parseEvents_of Documents.nine_records_platform Fixtures.ical_js Fixtures.node_ical
       node_ical "" None [] = (inr events, []) /\
     length events = 9%nat).
Proof.
  split; [reflexivity |].
  split; [vm_compute; reflexivity |].
  split; [vm_compute; reflexivity |].
  split; eexists; (split; [vm_compute; reflexivity | reflexivity]).
Qed.

(** ** Documents without the top-level structure *)

Section Structure.
Context {P : Platform}.

Lemma parseCalendars_undecodable responseData baseUrl :
  undecodable calendarOptions responseData ->
  fails (parseCalendars responseData baseUrl).
Proof.
  intros [error Hxml]. exists error. unfold parseCalendars. by rewrite Hxml.
Qed.

Lemma parseCalendars_no_multistatus responseData baseUrl :
  lacks_multistatus calendarOptions responseData ->
  fails (parseCalendars responseData baseUrl).
Proof.
  intros (jsonData & Hxml & Hnull). unfold parseCalendars, fails.
  rewrite Hxml. cbn. unfold js_get, opt_get in *.
  destruct (nullish jsonData); cbn; [eauto |].
  rewrite Hnull. cbn. eauto.
Qed.

(** A falsy [response] is wrapped into a one-element array, and reading the
    propstat of that element, or the status of its propstat, throws. *)
Lemma calendars_loop_falsy_response (response : JsValue) baseUrl :
  truthy response = false ->
  fails (calendars_loop (as_array response) baseUrl []).
Proof.
  unfold fails.
  destruct response as [| | b | n | s | | | | |]; cbn; try discriminate; eauto.
Qed.

Lemma parseCalendars_no_response responseData baseUrl :
  lacks_response calendarOptions responseData ->
  fails (parseCalendars responseData baseUrl).
Proof.
  intros (jsonData & multistatus & response & Hxml & Hms & Hresp & Hfalsy).
  unfold parseCalendars. rewrite Hxml. cbn. rewrite Hms. cbn. rewrite Hresp. cbn.
  by apply calendars_loop_falsy_response.
Qed.
End Structure.

(** C5, as the code has it.  A document the decoder throws on, or whose
    decoding has no [multistatus], fails both entry points.  A [multistatus]
    without [response] fails parseCalendars, while parseEvents (either
    variant) returns the empty list and logs nothing. *)
Theorem structural_failures
    `{Platform, ICAL.Library, NodeIcal.Library} (v : Backend)
    (responseData : string) (baseUrl : option string) (console : list Exn) :
  (undecodable calendarOptions responseData \/
   lacks_multistatus calendarOptions responseData \/
   lacks_response calendarOptions responseData ->
   fails (parseCalendars responseData baseUrl)) /\
  (undecodable eventOptions responseData \/
   lacks_multistatus eventOptions responseData ->
   fails (parseEvents_of v responseData baseUrl console).1) /\
  (lacks_response eventOptions responseData ->
   parseEvents_of v responseData baseUrl console = (inr [], console)).
Proof.
  rewrite parseEvents_of_around. repeat split.
  - intros [Hu | [Hm | Hr]];
      auto using parseCalendars_undecodable, parseCalendars_no_multistatus,
        parseCalendars_no_response.
  - intros [Hu | Hm];
      auto using parseEvents_around_undecodable, parseEvents_around_no_multistatus.
  - apply parseEvents_around_no_response.
Qed.

(** The three kinds of document, one each. *)
Lemma structural_failures_witness :
  fails (@parseCalendars (Fixtures.decoding (throw (LibraryError "unclosed tag")))
           "<multistatus>" None) /\
  fails (@parseEvents_of (Fixtures.decoding (ret (JsObj [("html", JsStr "Not found")])))
           Fixtures.ical_js Fixtures.node_ical ical_js "<html>Not found</html>" None []).1 /\
  @parseEvents_of (Fixtures.decoding (ret (JsObj [("multistatus", JsStr "")])))
    Fixtures.ical_js Fixtures.node_ical node_ical "<multistatus/>" None []
  = (inr [], []).
Proof.
  split; [| split].
  - apply (proj1 (@structural_failures
             (Fixtures.decoding (throw (LibraryError "unclosed tag")))
             Fixtures.ical_js Fixtures.node_ical ical_js "<multistatus>" None [])).
    left. eexists. reflexivity.
  - apply (proj1 (proj2 (@structural_failures
             (Fixtures.decoding (ret (JsObj [("html", JsStr "Not found")])))
             Fixtures.ical_js Fixtures.node_ical ical_js "<html>Not found</html>" None []))).
    right. eexists. split; reflexivity.
  - apply (proj2 (proj2 (@structural_failures
             (Fixtures.decoding (ret (JsObj [("multistatus", JsStr "")])))
             Fixtures.ical_js Fixtures.node_ical node_ical "<multistatus/>" None []))).
    eexists _, _, _. repeat split; reflexivity.
Defined.

(** C5 as stated fails: the decoding of an empty [multistatus] element lacks
    the [response] structure, and parseEvents, in both variants, settles with
    the empty list instead of an error. *)
Lemma empty_multistatus_parses_to_no_events :
  @lacks_response (Fixtures.decoding (ret (JsObj [("multistatus", JsStr "")])))
    eventOptions "<multistatus/>" /\
  @IcalJs.parseEvents (Fixtures.decoding (ret (JsObj [("multistatus", JsStr "")])))
    Fixtures.ical_js "<multistatus/>" None [] = (inr [], []) /\
  @NodeIcal.parseEvents (Fixtures.decoding (ret (JsObj [("multistatus", JsStr "")])))
    Fixtures.node_ical "<multistatus/>" None [] = (inr [], []) /\
  ~ fails (@IcalJs.parseEvents (Fixtures.decoding (ret (JsObj [("multistatus", JsStr "")])))
             Fixtures.ical_js "<multistatus/>" None []).1.
Proof.
  repeat split.
  - eexists _, _, _. repeat split; reflexivity.
  - intros [error Herror]. discriminate Herror.
Qed.

(** ** The etag of an event *)

Ltac bind_steps H := repeat (cbv zeta in H; bind_inv H).

(** Where the events of a successful loop come from. *)
Lemma events_loop_origin (body : JsValue -> Outcome) (response : list JsValue) :
  forall events console returned event,
    (events_loop body response events console).1 = inr returned ->
    event ∈ returned ->
    event ∈ events \/ exists obj, obj ∈ response /\ body obj = Push event.
Proof.
  induction response as [| obj rest IH]; intros events console returned event; cbn.
  - intros [= <-]. auto.
  - destruct (body obj) as [| pushed | error | error] eqn:Hobj; cbn; intros Hrun Hin.
    + destruct (IH _ _ _ _ Hrun Hin) as [? | (o & ? & ?)]; [auto |].
      right. exists o. split; [by apply list_elem_of_further | done].
    + destruct (IH _ _ _ _ Hrun Hin) as [Hold | (o & ? & ?)].
      * apply elem_of_app in Hold as [? | Hnew]; [auto |].
        apply list_elem_of_singleton in Hnew as ->.
        right. exists obj. split; [apply list_elem_of_here | done].
      * right. exists o. split; [by apply list_elem_of_further | done].
    + destruct (IH _ _ _ _ Hrun Hin) as [? | (o & ? & ?)]; [auto |].
      right. exists o. split; [by apply list_elem_of_further | done].
    + discriminate Hrun.
Qed.

Section Etag.
Context {P : Platform} {L : ICAL.Library} {N : NodeIcal.Library}.

Lemma IcalJs_event_etag vevent eventData obj baseUrl event :
  IcalJs.event_of_vevent vevent eventData obj baseUrl = inr event ->
  etag event = js_or (own_property eventData "getetag") (JsStr "").
Proof.
  unfold IcalJs.event_of_vevent.
  destruct (ICAL.Event_startDate vevent); try discriminate.
  intros Hrun. bind_steps Hrun.
  unfold js_get, ret, throw in *.
  destruct (nullish eventData); by simplify_eq.
Qed.

Lemma NodeIcal_event_etag vevent eventData obj baseUrl event :
  NodeIcal.event_of_vevent vevent eventData obj baseUrl = inr event ->
  etag event = js_or (own_property eventData "getetag") (JsStr "").
Proof.
  unfold NodeIcal.event_of_vevent.
  intros Hrun. bind_steps Hrun.
  unfold js_get, ret, throw in *.
  destruct (nullish eventData); by simplify_eq.
Qed.

Lemma try_block_etag (v : Backend) cleaned eventData obj baseUrl event :
  try_block_of v cleaned eventData obj baseUrl = inr (Some event) ->
  etag event = js_or (own_property eventData "getetag") (JsStr "").
Proof.
  destruct v; cbn; intros Hrun.
  - unfold IcalJs.try_block in Hrun. bind_steps Hrun.
    destruct (ICAL.getFirstSubcomponent _ _); [| discriminate].
    bind_steps Hrun. unfold ret in Hrun. simplify_eq.
    by eapply IcalJs_event_etag.
  - unfold NodeIcal.try_block in Hrun. bind_steps Hrun.
    destruct (negb (truthy _)); [discriminate |].
    bind_steps Hrun. unfold ret in Hrun. simplify_eq.
    by eapply NodeIcal_event_etag.
Qed.

Lemma response_body_etag (v : Backend) baseUrl obj event :
  response_body (try_block_of v) baseUrl obj = Push event ->
  etag event = js_or (getetag_of obj) (JsStr "").
Proof.
  unfold response_body, getetag_of, js_get, ret.
  destruct (nullish obj); [discriminate |].
  set (eventData := opt_get (own_property obj "propstat") "prop").
  destruct (truthy eventData); [| discriminate].
  destruct (own_property eventData "calendar-data") as [| | | | raw | | | | |];
    cbn; try discriminate.
  { by destruct b. }
  { destruct n as [z | |]; cbn; [by destruct (z =? 0)%Z | done | done]. }
  destruct (String.eqb raw ""); [discriminate |]. cbn.
  unfold try_catch.
  destruct (try_block_of v _ _ _ _) as [| [ev |]] eqn:Htry; try discriminate.
  intros [= <-]. by eapply try_block_etag.
Qed.
End Etag.

Lemma js_or_empty_not_undefined (v : JsValue) : js_or v (JsStr "") <> JsUndefined.
Proof.
  unfold js_or. destruct (truthy v) eqn:Htruthy; [| discriminate].
  intros ->. discriminate Htruthy.
Qed.

(** What [|| ""] does ensure: every event parseEvents returns (either
    variant) was pushed for a response record, and its etag is the record's
    getetag when that is truthy and the empty string otherwise: never
    undefined, the empty string when getetag is missing, a string whenever
    the decoded getetag is one. *)
Lemma etag_defaults_to_empty_string
    `{Platform, ICAL.Library, NodeIcal.Library} (v : Backend)
    (responseData : string) (baseUrl : option string) (console : list Exn)
    (events : list Event) (event : Event) :
  (parseEvents_of v responseData baseUrl console).1 = inr events ->
  event ∈ events ->
  exists obj,
    response_body (try_block_of v) baseUrl obj = Push event /\
    etag event = js_or (getetag_of obj) (JsStr "") /\
    etag event <> JsUndefined /\
    (getetag_of obj = JsUndefined -> etag event = JsStr "") /\
    (is_string (getetag_of obj) = true -> is_string (etag event) = true).
Proof.
  rewrite parseEvents_of_around. unfold parseEvents_around.
  destruct (bind _ _) as [error | response]; [discriminate |].
  destruct (negb (truthy response)).
  - intros [= <-] Hin. by apply elem_of_nil in Hin.
  - intros Hrun Hin.
    destruct (events_loop_origin _ _ _ _ _ _ Hrun Hin) as [Hnil | (obj & _ & Hpush)];
      [by apply elem_of_nil in Hnil |].
    exists obj. pose proof (response_body_etag _ _ _ _ Hpush) as Hetag.
    split; [done |]. split; [done |]. rewrite Hetag.
    split; [apply js_or_empty_not_undefined |]. split.
    + by intros ->.
    + unfold js_or. by destruct (getetag_of obj), (truthy _).
Qed.

(** The record without getetag of the fixture gives the empty string. *)
Lemma etag_defaults_to_empty_string_witness :
  exists obj,
    response_body
      (@try_block_of Fixtures.etag_platform Fixtures.ical_js Fixtures.node_ical ical_js)
      None obj
    = Push (Fixtures.whole_day_event "/cal/a.ics" (JsStr "")) /\
    etag (Fixtures.whole_day_event "/cal/a.ics" (JsStr ""))
    = js_or (getetag_of obj) (JsStr "") /\
    etag (Fixtures.whole_day_event "/cal/a.ics" (JsStr "")) <> JsUndefined /\
    (getetag_of obj = JsUndefined ->
     etag (Fixtures.whole_day_event "/cal/a.ics" (JsStr "")) = JsStr "") /\
    (is_string (getetag_of obj) = true ->
     is_string (etag (Fixtures.whole_day_event "/cal/a.ics" (JsStr ""))) = true).
Proof.
  apply (@etag_defaults_to_empty_string
           Fixtures.etag_platform Fixtures.ical_js Fixtures.node_ical ical_js
           "" None []
           [Fixtures.whole_day_event "/cal/a.ics" (JsStr "");
            Fixtures.whole_day_event "/cal/b.ics" (JsNum 42)]).
  - vm_compute. reflexivity.
  - apply list_elem_of_here.
Defined.

(** C8 fails on three records whose getetag the XML decoder delivers as a
    number (42 and 0 for a text made of digits, and NaN): in either variant
    the event of the first carries the number 42 as its etag, not a string,
    and the events of the other two the empty string, as if they had no
    getetag. *)
Theorem number_getetag_is_not_kept_as_a_string :
  getetag_of <$> Documents.number_etag_records = [JsNum 42; JsNum 0; JsNum NaN] /\
  (exists events,
     (@parseEvents_of Documents.number_etag_platform Fixtures.ical_js Fixtures.node_ical
        ical_js "" None []).1 = inr events /\
     etag <$> events = [JsNum 42; JsStr ""; JsStr ""]) /\
  (exists events,
     (@parseEvents_of Documents.number_etag_platform Fixtures.ical_js Fixtures.node_ical
        node_ical "" None []).1 = inr events /\
     etag <$> events = [JsNum 42; JsStr ""; JsStr ""]) /\
  is_string (JsNum 42) = false.
Proof.
  split; [reflexivity |].
  split; [eexists; split; [vm_compute; reflexivity | reflexivity] |].
  split; [eexists; split; [vm_compute; reflexivity | reflexivity] |].
  reflexivity.
Qed.

(** ** Calendars *)

Ltac result_steps H :=
  repeat (cbv zeta in H;
          match type of H with
          | bind ?m _ = inr _ =>
              let E := fresh "E" in
              destruct m eqn:E; cbn [bind] in H; [discriminate H |]
          | (if ?b then _ else _) = inr _ =>
              let E := fresh "E" in
              destruct b eqn:E; [try discriminate H | try discriminate H]
          end).

Lemma component_of_name_VEVENT (name : JsValue) :
  component_of_name name = Some VEVENT <-> name = JsStr "VEVENT".
Proof.
  split; [| by intros ->].
  destruct name as [| | | | s | | | | |]; cbn; try discriminate.
  destruct (String.eqb_spec s "VEVENT") as [-> | _]; [done |].
  repeat (match goal with |- context [String.eqb ?a ?b] => destruct (String.eqb a b) end;
          try discriminate).
Qed.

Lemma supports_VEVENT_names (names : list JsValue) :
  supports_VEVENT (omap component_of_name names) = true <-> JsStr "VEVENT" ∈ names.
Proof.
  unfold supports_VEVENT. rewrite bool_decide_eq_true, list_elem_of_omap. split.
  - intros (name & Hin & Hname). by apply component_of_name_VEVENT in Hname as <-.
  - intros Hin. exists (JsStr "VEVENT"). by rewrite component_of_name_VEVENT.
Qed.

Section Calendars.
Context {P : Platform}.

Lemma calendar_of_response_VEVENT res baseUrl calendar :
  calendar_of_response res baseUrl = inr (Some calendar) ->
  VEVENT ∈ supportedComponents calendar.
Proof.
  unfold calendar_of_response. intros Hrun. result_steps Hrun.
  unfold ret in Hrun. simplify_eq. cbn.
  match goal with
  | E : negb (supports_VEVENT ?cs) = false |- _ =>
      apply negb_false_iff in E; unfold supports_VEVENT in E;
      by apply bool_decide_eq_true in E
  end.
Qed.

Lemma calendars_loop_invariant (Q : Calendar -> Prop) baseUrl :
  (forall res calendar,
      calendar_of_response res baseUrl = inr (Some calendar) -> Q calendar) ->
  forall responses calendars returned,
    calendars_loop responses baseUrl calendars = inr returned ->
    Forall Q calendars -> Forall Q returned.
Proof.
  intros Hstep. induction responses as [| res rest IH]; intros calendars returned; cbn.
  - by intros [= <-].
  - destruct (calendar_of_response res baseUrl) as [| [calendar |]] eqn:Hres;
      cbn; [discriminate | |]; intros Hrun Hall.
    + apply (IH _ _ Hrun). apply Forall_app. split; [done |].
      apply Forall_singleton. by eapply Hstep.
    + by apply (IH _ _ Hrun).
Qed.

(** A record whose selected propstat names no VEVENT is a [continue]. *)
Lemma calendar_of_response_without_VEVENT res baseUrl propstat okPropstat prop names :
  js_get res "propstat" = inr propstat ->
  find_okPropstat (as_array propstat) = inr okPropstat ->
  js_get okPropstat "prop" = inr prop ->
  comp_names (comp_array prop) = inr names ->
  JsStr "VEVENT" ∉ names ->
  calendar_of_response res baseUrl = inr None.
Proof.
  intros Hps Hok Hprop Hnames Hnone. unfold calendar_of_response.
  rewrite Hps. cbn. rewrite Hok. cbn.
  destruct (negb (truthy okPropstat)); [done |].
  rewrite Hprop. cbn. rewrite Hnames. cbn.
  destruct (supports_VEVENT _) eqn:Hsup; [| done].
  by apply supports_VEVENT_names in Hsup.
Qed.
End Calendars.

(** C6.  Every calendar parseCalendars returns lists VEVENT among its
    supported components, and a response record whose component set names no
    VEVENT (only VTODO, say) adds nothing to the calendars. *)
Theorem calendars_support_VEVENT `{Platform}
    (responseData : string) (baseUrl : option string) (calendars : list Calendar) :
  parseCalendars responseData baseUrl = inr calendars ->
  Forall (fun calendar => VEVENT ∈ supportedComponents calendar) calendars /\
  (forall res propstat okPropstat prop names,
      js_get res "propstat" = inr propstat ->
      find_okPropstat (as_array propstat) = inr okPropstat ->
      js_get okPropstat "prop" = inr prop ->
      comp_names (comp_array prop) = inr names ->
      JsStr "VEVENT" ∉ names ->
      forall rest collected,
        calendars_loop (res :: rest) baseUrl collected
        = calendars_loop rest baseUrl collected).
Proof.
  intros Hrun. split.
  - unfold parseCalendars in Hrun. result_steps Hrun.
    eapply calendars_loop_invariant; [| exact Hrun | constructor].
    intros res calendar. apply calendar_of_response_VEVENT.
  - intros res propstat okPropstat prop names Hps Hok Hprop Hnames Hnone rest collected.
    cbn. by rewrite (calendar_of_response_without_VEVENT _ _ _ _ _ _ Hps Hok Hprop Hnames Hnone).
Qed.

(** The calendar home of the fixture: the task list is left out. *)
Lemma calendars_support_VEVENT_witness :
  @parseCalendars Fixtures.calendars_platform "" None
  = inr [ {| displayName := JsStr "Work"; url := JsStr "/cal/work/";
             ctag := JsStr "ctag-1"; supportedComponents := [VEVENT; VTODO] |} ] /\
  Forall (fun calendar => VEVENT ∈ supportedComponents calendar)
    [ {| displayName := JsStr "Work"; url := JsStr "/cal/work/";
         ctag := JsStr "ctag-1"; supportedComponents := [VEVENT; VTODO] |} ] /\
  @calendars_loop Fixtures.calendars_platform [Fixtures.tasks_response] None []
  = @calendars_loop Fixtures.calendars_platform [] None [].
Proof.
  assert (Hrun : @parseCalendars Fixtures.calendars_platform "" None
    = inr [ {| displayName := JsStr "Work"; url := JsStr "/cal/work/";
               ctag := JsStr "ctag-1"; supportedComponents := [VEVENT; VTODO] |} ])
    by (vm_compute; reflexivity).
  split; [exact Hrun |].
  destruct (@calendars_support_VEVENT Fixtures.calendars_platform "" None _ Hrun)
    as [Hall Hskip].
  split; [exact Hall |].
  eapply (Hskip Fixtures.tasks_response); try reflexivity.
  intros Hin. apply list_elem_of_singleton in Hin. discriminate Hin.
Defined.

(** ** The change detector *)

(** The worked example of the design: with differing change tags the
    detector of the model does compare the references. *)
Example detectChanges_compares_references :
  ChangeDetector.detectChanges
    "ctag-1" [mkEventRef "/a" "1"]
    "ctag-2" [mkEventRef "/a" "2"; mkEventRef "/b" "1"]
  = {| changed := true; newCtag := "ctag-2";
       newEvents := ["/b"]; updatedEvents := ["/a"]; deletedEvents := [] |}.
Proof. vm_compute. reflexivity. Qed.

(** C3.  With equal change tags the detector answers "unchanged" with three
    empty lists, whatever the two reference lists hold. *)
Theorem equal_ctags_short_circuit
    (prevCtag currCtag : string) (prevRefs currRefs : list EventRef) :
  prevCtag = currCtag ->
  ChangeDetector.detectChanges prevCtag prevRefs currCtag currRefs
  = {| changed := false; newCtag := currCtag;
       newEvents := []; updatedEvents := []; deletedEvents := [] |}.
Proof.
  intros ->. unfold ChangeDetector.detectChanges. by rewrite String.eqb_refl.
Qed.

(** The references of the worked example under one and the same tag. *)
Lemma equal_ctags_short_circuit_witness :
  ChangeDetector.detectChanges
    "ctag-1" [mkEventRef "/a" "1"]
    "ctag-1" [mkEventRef "/a" "2"; mkEventRef "/b" "1"]
  = {| changed := false; newCtag := "ctag-1";
       newEvents := []; updatedEvents := []; deletedEvents := [] |}.
Proof.
  apply (equal_ctags_short_circuit "ctag-1" "ctag-1"
           [mkEventRef "/a" "1"] [mkEventRef "/a" "2"; mkEventRef "/b" "1"]).
  reflexivity.
Defined.

(** ** Alarms *)

Lemma strict_eq_str_true (v : JsValue) (lit : string) :
  strict_eq_str v lit = true <-> v = JsStr lit.
Proof.
  destruct v; cbn; try (split; discriminate).
  rewrite String.eqb_eq. split; [by intros -> | by intros [= ->]].
Qed.

Section Alarms.
Context {P : Platform}.


Lemma IcalJs_alarm_action (valarm : ICAL.Component) (alarm : Alarm) :
  IcalJs.alarm_of_valarm valarm = Some alarm ->
  ICAL.getFirstPropertyValue valarm "action" = JsStr (action alarm) /\
  truthy (trigger alarm) = true.
Proof.
  unfold IcalJs.alarm_of_valarm.
  repeat match goal with
         | |- context [strict_eq_str ?v ?lit && ?t] =>
             destruct (strict_eq_str v lit) eqn:?; destruct t eqn:?; cbn [andb]
         end;
    intros [= <-]; cbn; split; try done; by apply strict_eq_str_true.
Qed.




End Alarms.





(** ** The attendees of an EMAIL alarm *)

Section Attendees.
Context {P : Platform}.

(** Over ical.js the attendees are the string values of all the attendee
    properties, in order. *)
Lemma IcalJs_email_attendees (valarm : ICAL.Component) :
  ICAL.getFirstPropertyValue valarm "action" = JsStr "EMAIL" ->
  truthy (opt_toString (ICAL.getFirstPropertyValue valarm "trigger")) = true ->
  exists description summary,
    IcalJs.alarm_of_valarm valarm
    = Some (EMAIL (opt_toString (ICAL.getFirstPropertyValue valarm "trigger"))
              description summary
              (IcalJs.strings_of
                 (ICAL.getFirstValue <$> ICAL.getAllProperties valarm "attendee"))).
Proof.
  intros Haction Htrigger. unfold IcalJs.alarm_of_valarm.
  rewrite Haction, Htrigger. cbn. eauto.
Qed.

Lemma strings_of_all_strings (values : list JsValue) :
  Forall (fun v => is_string v = true) values ->
  length (IcalJs.strings_of values) = length values.
Proof.
  induction 1 as [| v rest Hv _ IH]; [done |].
  destruct v; try discriminate Hv. cbn. f_equal. exact IH.
Qed.

(** Over node-ical they are at most one string: what [toString] makes of
    whatever the [attendee] property holds. *)
Lemma NodeIcal_email_attendees (valarm : JsValue) (alarm : Alarm) :
  NodeIcal.alarm_of_valarm valarm = inr (Some alarm) ->
  action alarm = "EMAIL" ->
  exists trigger description summary,
    alarm = EMAIL trigger description summary
              (if truthy (own_property valarm "attendee")
               then [js_toString (own_property valarm "attendee")] else []).
Proof.
  unfold NodeIcal.alarm_of_valarm, js_get.
  destruct (nullish valarm); cbn; [discriminate |].
  repeat match goal with
         | |- context [strict_eq_str ?v ?lit && ?t] =>
             destruct (strict_eq_str v lit && t)
         end;
    unfold ret; intros [= <-]; cbn; try discriminate; eauto.
Qed.
End Attendees.

(** C4 at the alarm with two ATTENDEE properties.  Over ical.js the alarm has
    both attendees; over node-ical, which delivers the repeated property as
    an array, the alarm has one attendee, the array printed as one string;
    and so in the events parseEvents returns. *)
Theorem two_attendees_become_one_over_node_ical :
  @IcalJs.alarm_of_valarm Fixtures.alarms_platform Fixtures.email_with_trigger
  = Some (EMAIL (JsStr "-PT15M") JsUndefined JsUndefined
            ["mailto:a@example.com"; "mailto:b@example.com"]) /\
  @NodeIcal.alarm_of_valarm Fixtures.alarms_platform Fixtures.email_with_trigger_object
  = inr (Some (EMAIL (JsStr "-PT15M") JsUndefined JsUndefined
                 ["mailto:a@example.com,mailto:b@example.com"])) /\
  (exists event,
     (@IcalJs.parseEvents Fixtures.alarms_platform Fixtures.ical_js "" None []).1
     = inr [event] /\
     alarms event = [EMAIL (JsStr "-PT15M") JsUndefined JsUndefined
                       ["mailto:a@example.com"; "mailto:b@example.com"]]) /\
  (exists event,
     (@NodeIcal.parseEvents Fixtures.alarms_platform Fixtures.node_ical "" None []).1
     = inr [event] /\
     alarms event = [EMAIL (JsStr "-PT15M") JsUndefined JsUndefined
                       ["mailto:a@example.com,mailto:b@example.com"]]).
Proof.
  split; [vm_compute; reflexivity |]. split; [vm_compute; reflexivity |].
  split; eexists; (split; [vm_compute; reflexivity | reflexivity]).
Qed.

(** ** The end of a whole-day event *)

Section WholeDay.
Context {P : Platform} {L : ICAL.Library} {N : NodeIcal.Library}.

Lemma new_Date_in_range (t : Z) :
  in_Date_range t -> new_Date (Some t) = JsDate (Some t) JsUndefined.
Proof.
  unfold in_Date_range, new_Date, TimeClip. intros Hrange.
  by destruct (Z.leb_spec (Z.abs t) 8640000000000000); [| lia].
Qed.

(** Over ical.js: with a DTEND, the end of a whole-day event is the raw end
    less one day, and the end of any other event is the raw end. *)
Lemma IcalJs_event_end vevent eventData obj baseUrl event
    (isDate endIsDate : bool) (unix : option Z) (rawEnd : Z) (str endStr : string) :
  IcalJs.event_of_vevent vevent eventData obj baseUrl = inr event ->
  ICAL.Event_startDate vevent = JsTime isDate unix str ->
  ICAL.getFirstPropertyValue vevent "dtend" = JsTime endIsDate (Some rawEnd) endStr ->
  in_Date_range (1000 * rawEnd) ->
  in_Date_range (1000 * rawEnd - DAY_MS) ->
  wholeDay event = isDate /\
  end_ event
  = JsDate (Some (if isDate then 1000 * rawEnd - DAY_MS else 1000 * rawEnd)%Z) JsUndefined.
Proof.
  unfold IcalJs.event_of_vevent, ICAL.Event_endDate.
  intros Hrun Hstart Hend Hraw Hshifted. rewrite Hstart, Hend in Hrun.
  cbn [truthy IcalJs.date_of_time bind ret fmap option_fmap option_map] in Hrun.
  rewrite (new_Date_in_range _ Hraw) in Hrun.
  bind_steps Hrun. unfold ret in Hrun. simplify_eq. cbn.
  split; [done |]. destruct isDate; [| done].
  by apply new_Date_in_range.
Qed.

(** Over node-ical: the end is the [end] of the event object, whatever its
    [datetype]. *)
Lemma NodeIcal_event_end vevent eventData obj baseUrl event :
  NodeIcal.event_of_vevent vevent eventData obj baseUrl = inr event ->
  wholeDay event = strict_eq_str (own_property vevent "datetype") "date" /\
  end_ event = own_property vevent "end".
Proof.
  unfold NodeIcal.event_of_vevent. intros Hrun. bind_steps Hrun.
  unfold js_get, ret, throw in *.
  destruct (nullish vevent); by simplify_eq.
Qed.
End WholeDay.

(** C1 at the whole-day event from 2024-01-10 with the exclusive end
    2024-01-12.  The ical.js variant returns the end 2024-01-11, one day
    before the raw end; the node-ical variant returns the raw end itself. *)
Theorem whole_day_end_is_not_shifted_over_node_ical :
  (@IcalJs.parseEvents Fixtures.whole_day_platform Fixtures.ical_js "" None []).1
  = inr [Fixtures.whole_day_event "/cal/1.ics" (JsStr "e1")] /\
  end_ (Fixtures.whole_day_event "/cal/1.ics" (JsStr "e1"))
  = JsDate (Some (Fixtures.jan12 * 1000 - 86400000)%Z) JsUndefined /\
  exists event,
    (@NodeIcal.parseEvents Fixtures.whole_day_platform Fixtures.node_ical "" None []).1
    = inr [event] /\
    wholeDay event = true /\
    end_ event = JsDate (Some (Fixtures.jan12 * 1000)%Z) JsUndefined /\
    end_ event <> JsDate (Some (Fixtures.jan12 * 1000 - 86400000)%Z) JsUndefined.
Proof.
  split; [vm_compute; reflexivity |]. split; [vm_compute; reflexivity |].
  eexists. split; [vm_compute; reflexivity |]. cbn. repeat split. discriminate.
Qed.

(** * Further properties of the parsers *)

(** ** The loop of parseEvents: origin, order and number of the events *)

Lemma events_loop_trace (body : JsValue -> Outcome) (response : list JsValue) :
  forall events console returned console',
    events_loop body response events console = (inr returned, console') ->
    exists pushed objs logged,
      returned = events ++ pushed /\
      console' = console ++ logged /\
      sublist objs response /\
      Forall2 (fun event obj => body obj = Push event) pushed objs /\
      (length pushed + length logged <= length response)%nat.
Proof.
  induction response as [| obj rest IH]; intros events console returned console'; cbn.
  - intros [= <- <-]. exists [], [], []. rewrite !app_nil_r.
    repeat split; [constructor | constructor | done].
  - destruct (body obj) as [| event | error | error] eqn:Hobj; intros Hrun.
    + destruct (IH _ _ _ _ Hrun) as (pushed & objs & logged & -> & -> & Hsub & Hall & Hlen).
      exists pushed, objs, logged. repeat split; [by apply sublist_cons | done | lia].
    + destruct (IH _ _ _ _ Hrun) as (pushed & objs & logged & -> & -> & Hsub & Hall & Hlen).
      exists (event :: pushed), (obj :: objs), logged. rewrite <- app_assoc.
      repeat split; [by apply sublist_skip | by constructor | cbn; lia].
    + destruct (IH _ _ _ _ Hrun) as (pushed & objs & logged & -> & -> & Hsub & Hall & Hlen).
      exists pushed, objs, (error :: logged). rewrite <- app_assoc.
      repeat split; [by apply sublist_cons | done | cbn; lia].
    + discriminate Hrun.
Qed.

Lemma events_loop_app (body : JsValue -> Outcome) (first second : list JsValue) :
  forall events console,
    events_loop body (first ++ second) events console
    = match events_loop body first events console with
      | (inr collected, console') => events_loop body second collected console'
      | (inl error, console') => (inl error, console')
      end.
Proof.
  induction first as [| obj rest IH]; intros events console; cbn; [done |].
  destruct (body obj); cbn; auto.
Qed.

Lemma events_loop_from_empty (body : JsValue -> Outcome) (response : list JsValue) :
  forall events console returned console',
    events_loop body response [] console = (inr returned, console') ->
    events_loop body response events console = (inr (events ++ returned), console').
Proof.
  assert (Hgen : forall rs events extra console returned console',
    events_loop body rs events console = (inr returned, console') ->
    events_loop body rs (extra ++ events) console = (inr (extra ++ returned), console')).
  { induction rs as [| obj rest IH]; intros events extra console returned console'; cbn.
    - by intros [= <- <-].
    - destruct (body obj); intros Hrun; try discriminate Hrun.
      + by apply IH.
      + rewrite <- app_assoc. by apply IH.
      + by apply IH. }
  intros events console returned console' Hrun.
  specialize (Hgen response [] events console returned console' Hrun).
  by rewrite app_nil_r in Hgen.
Qed.

Section AroundRecords.
Context {P : Platform}.
Variable try_block :
  string -> JsValue -> JsValue -> option string -> result (option Event).

Lemma parseEvents_around_records responseData baseUrl console jsonData multistatus response :
  XMLParser_parse eventOptions responseData = inr jsonData ->
  js_get jsonData "multistatus" = inr multistatus ->
  js_get multistatus "response" = inr response ->
  parseEvents_around try_block responseData baseUrl console
  = events_loop (response_body try_block baseUrl) (response_records response) [] console.
Proof.
  intros Hxml Hms Hresp. unfold parseEvents_around, response_records.
  rewrite Hxml. cbn. rewrite Hms. cbn. rewrite Hresp.
  by destruct (truthy response).
Qed.

(** An error escapes a turn of the loop exactly on a record that is not
    well shaped. *)
Lemma response_body_uncaught_iff baseUrl obj :
  (exists error, response_body try_block baseUrl obj = Uncaught error)
  <-> well_shaped obj = false.
Proof.
  unfold response_body, well_shaped, calendar_data_of, js_get, ret, throw.
  destruct (nullish obj) eqn:Hobj; cbn [negb andb]; [split; eauto |].
  set (eventData := opt_get (own_property obj "propstat") "prop").
  destruct (truthy eventData) eqn:Hdata; cbn [negb].
  - destruct (own_property eventData "calendar-data") as [| | b | n | raw | | | | |] eqn:Hraw;
      cbn [truthy negb orb is_string];
      try (split; [intros [? [=]] | discriminate]); try (split; eauto; fail).
    + destruct b; cbn; split; eauto; try discriminate; intros [? [=]].
    + destruct n as [z | |]; cbn [truthy negb orb is_string];
        [destruct (z =? 0)%Z | |]; cbn; split; eauto; try discriminate; intros [? [=]].
    + rewrite orb_true_r. destruct (negb (String.eqb raw "")); cbn;
        [| split; [intros [? [=]] | discriminate]].
      unfold try_catch. destruct (try_block _ _ _ _) as [| []];
        split; try discriminate; intros [? [=]].
  - assert (Hnone : own_property eventData "calendar-data" = JsUndefined)
      by (destruct eventData; try discriminate Hdata; done).
    rewrite Hnone. cbn. split; [intros [? [=]] | discriminate].
Qed.

Lemma response_body_continue baseUrl obj :
  nullish obj = false ->
  truthy (calendar_data_of obj) = false ->
  response_body try_block baseUrl obj = Continue.
Proof.
  unfold response_body, calendar_data_of, js_get, ret. intros -> Hdata.
  destruct (truthy (opt_get (own_property obj "propstat") "prop")); cbn [negb];
    [| done].
  by rewrite Hdata.
Qed.
End AroundRecords.

Lemma events_loop_fails_iff (body : JsValue -> Outcome) (response : list JsValue) :
  forall events console,
    fails (events_loop body response events console).1
    <-> Exists (fun obj => exists error, body obj = Uncaught error) response.
Proof.
  unfold fails.
  induction response as [| obj rest IH]; intros events console; cbn.
  - split; [intros [? [=]] | intros H; inversion H].
  - rewrite Exists_cons.
    destruct (body obj) as [| event | error | error] eqn:Hobj; cbn;
      try (rewrite IH; split; [auto | intros [[? [=]] | ?]; done]).
    split; eauto.
Qed.

Lemma events_loop_continue (body : JsValue -> Outcome) (before after : list JsValue)
    (obj : JsValue) :
  body obj = Continue ->
  forall events console,
    events_loop body (before ++ obj :: after) events console
    = events_loop body (before ++ after) events console.
Proof.
  intros Hobj events console. rewrite !events_loop_app.
  destruct (events_loop body before events console) as [[error | collected] console'];
    [done |]. cbn. by rewrite Hobj.
Qed.

Lemma parseEvents_of_records `{Platform, ICAL.Library, NodeIcal.Library} (v : Backend)
    responseData baseUrl console records :
  decodes_to eventOptions responseData records ->
  parseEvents_of v responseData baseUrl console
  = events_loop (response_body (try_block_of v) baseUrl) records [] console.
Proof.
  intros (jsonData & multistatus & response & Hxml & Hms & Hresp & <-).
  rewrite parseEvents_of_around. by eapply parseEvents_around_records.
Qed.

(** X1.  The events parseEvents returns are pushed, in order, by records of the
    document, at most one each; what it logs is appended to the console, and
    the events and the new log entries together are no more than the
    records. *)
Theorem events_follow_the_records
    `{Platform, ICAL.Library, NodeIcal.Library} (v : Backend)
    (responseData : string) (baseUrl : option string) (console console' : list Exn)
    (records : list JsValue) (events : list Event) :
  decodes_to eventOptions responseData records ->
  parseEvents_of v responseData baseUrl console = (inr events, console') ->
  exists objs logged,
    sublist objs records /\
    Forall2 (fun event obj => response_body (try_block_of v) baseUrl obj = Push event)
      events objs /\
    console' = console ++ logged /\
    (length events + length logged <= length records)%nat.
Proof.
  intros Hdoc Hrun. rewrite (parseEvents_of_records _ _ _ _ _ Hdoc) in Hrun.
  destruct (events_loop_trace _ _ _ _ _ _ Hrun)
    as (pushed & objs & logged & -> & -> & Hsub & Hall & Hlen).
  exists objs, logged. by repeat split.
Qed.

Lemma events_follow_the_records_witness :
  exists objs logged,
    sublist objs (Documents.first_batch ++ Documents.second_batch) /\
    Forall2
      (fun event obj =>
         response_body
           (@try_block_of Documents.batches Fixtures.ical_js Fixtures.node_ical ical_js)
           None obj = Push event)
      [Fixtures.whole_day_event "/cal/a.ics" (JsStr "a1");
       Fixtures.whole_day_event "/cal/d.ics" (JsStr "d1")] objs /\
    [LibraryError "invalid ical body"] = [] ++ logged /\
    (length [Fixtures.whole_day_event "/cal/a.ics" (JsStr "a1");
             Fixtures.whole_day_event "/cal/d.ics" (JsStr "d1")]
     + length logged <= length (Documents.first_batch ++ Documents.second_batch))%nat.
Proof.
  apply (@events_follow_the_records Documents.batches Fixtures.ical_js Fixtures.node_ical
           ical_js "both" None [] [LibraryError "invalid ical body"]).
  - eexists _, _, _. repeat split; reflexivity.
  - vm_compute. reflexivity.
Defined.

(** X2.  parseEvents rejects exactly when some record of the document is not
    well shaped: null or undefined, or with a calendar-data that is truthy
    and not a string.  Nothing the iCalendar library, the URL constructor or
    the extraction of a field throws makes it reject. *)
Theorem parseEvents_rejects_iff
    `{Platform, ICAL.Library, NodeIcal.Library} (v : Backend)
    (responseData : string) (baseUrl : option string) (console : list Exn)
    (records : list JsValue) :
  decodes_to eventOptions responseData records ->
  fails (parseEvents_of v responseData baseUrl console).1
  <-> Exists (fun obj => well_shaped obj = false) records.
Proof.
  intros Hdoc. rewrite (parseEvents_of_records _ _ _ _ _ Hdoc), events_loop_fails_iff.
  split; intros Hex; eapply Exists_impl; try exact Hex; intros obj;
    apply response_body_uncaught_iff.
Qed.

Lemma parseEvents_rejects_iff_witness :
  fails (@parseEvents_of Documents.batches Fixtures.ical_js Fixtures.node_ical
           node_ical "numeric" None []).1 /\
  ~ fails (@parseEvents_of Documents.batches Fixtures.ical_js Fixtures.node_ical
             node_ical "both" None []).1.
Proof.
  split.
  - apply (@parseEvents_rejects_iff Documents.batches Fixtures.ical_js Fixtures.node_ical
             node_ical "numeric" None []
             (Documents.first_batch ++ [Documents.numeric_data_record])).
    + eexists _, _, _. repeat split; reflexivity.
    + apply Exists_app. right. by constructor.
  - rewrite (@parseEvents_rejects_iff Documents.batches Fixtures.ical_js Fixtures.node_ical
               node_ical "both" None []
               (Documents.first_batch ++ Documents.second_batch)).
    + intros Hex. repeat (inversion Hex as [? ? Hbad | ? ? Hex']; subst;
                          [discriminate Hbad | clear Hex; rename Hex' into Hex]).
      inversion Hex.
    + eexists _, _, _. repeat split; reflexivity.
Defined.

(** X3.  A record that is an object and has no calendar-data (no propstat, no
    prop, no calendar-data, or an empty one) takes a [continue]: in either
    variant the loop returns and logs what it does without the record. *)
Theorem record_without_calendar_data_is_skipped
    `{Platform, ICAL.Library, NodeIcal.Library} (v : Backend)
    (baseUrl : option string) (obj : JsValue) (before after : list JsValue)
    (events : list Event) (console : list Exn) :
  nullish obj = false ->
  truthy (calendar_data_of obj) = false ->
  response_body (try_block_of v) baseUrl obj = Continue /\
  events_loop (response_body (try_block_of v) baseUrl) (before ++ obj :: after)
    events console
  = events_loop (response_body (try_block_of v) baseUrl) (before ++ after)
      events console.
Proof.
  intros Hobj Hdata.
  pose proof (response_body_continue (try_block_of v) baseUrl obj Hobj Hdata) as Hskip.
  split; [done |]. by apply events_loop_continue.
Qed.

Lemma record_without_calendar_data_is_skipped_witness :
  response_body
    (@try_block_of Documents.batches Fixtures.ical_js Fixtures.node_ical ical_js)
    None Documents.collection_record = Continue /\
  events_loop
    (response_body
       (@try_block_of Documents.batches Fixtures.ical_js Fixtures.node_ical ical_js) None)
    ([] ++ Documents.collection_record :: []) [] []
  = events_loop
      (response_body
         (@try_block_of Documents.batches Fixtures.ical_js Fixtures.node_ical ical_js) None)
      ([] ++ []) [] [].
Proof.
  apply (@record_without_calendar_data_is_skipped
           Documents.batches Fixtures.ical_js Fixtures.node_ical ical_js None
           Documents.collection_record [] [] [] []); reflexivity.
Defined.

(** X4.  parseEvents reads [obj["propstat"]?.["prop"]] without normalising the
    propstat: a record with several propstat elements, which the decoder
    delivers as an array, is skipped whatever they hold. *)
Theorem record_with_propstat_list_is_skipped
    `{Platform, ICAL.Library, NodeIcal.Library} (v : Backend)
    (baseUrl : option string) (obj : JsValue) (propstats : list JsValue) :
  own_property obj "propstat" = JsArr propstats ->
  response_body (try_block_of v) baseUrl obj = Continue.
Proof.
  intros Hlist. apply response_body_continue.
  - by destruct obj.
  - unfold calendar_data_of. by rewrite Hlist.
Qed.

Lemma record_with_propstat_list_is_skipped_witness :
  response_body
    (@try_block_of Documents.batches Fixtures.ical_js Fixtures.node_ical node_ical)
    None Documents.two_propstat_record = Continue.
Proof.
  eapply (@record_with_propstat_list_is_skipped
            Documents.batches Fixtures.ical_js Fixtures.node_ical node_ical None
            Documents.two_propstat_record).
  reflexivity.
Defined.

(** X5.  Parsing the records of two documents in one document gives the events of
    the first followed by those of the second, and the console the two
    parses would leave one after the other. *)
Theorem batches_compose
    `{Platform, ICAL.Library, NodeIcal.Library} (v : Backend)
    (first second both : string) (baseUrl : option string)
    (records1 records2 : list JsValue)
    (console console1 console2 : list Exn) (events1 events2 : list Event) :
  decodes_to eventOptions first records1 ->
  decodes_to eventOptions second records2 ->
  decodes_to eventOptions both (records1 ++ records2) ->
  parseEvents_of v first baseUrl console = (inr events1, console1) ->
  parseEvents_of v second baseUrl console1 = (inr events2, console2) ->
  parseEvents_of v both baseUrl console = (inr (events1 ++ events2), console2).
Proof.
  intros Hfirst Hsecond Hboth.
  rewrite (parseEvents_of_records _ _ _ _ _ Hfirst),
    (parseEvents_of_records _ _ _ _ _ Hsecond),
    (parseEvents_of_records _ _ _ _ _ Hboth).
  intros Hrun1 Hrun2. rewrite events_loop_app, Hrun1.
  by apply events_loop_from_empty.
Qed.

Lemma batches_compose_witness :
  @parseEvents_of Documents.batches Fixtures.ical_js Fixtures.node_ical
    ical_js "both" None []
  = (inr ([Fixtures.whole_day_event "/cal/a.ics" (JsStr "a1")]
          ++ [Fixtures.whole_day_event "/cal/d.ics" (JsStr "d1")]),
     [LibraryError "invalid ical body"]).
Proof.
  apply (@batches_compose Documents.batches Fixtures.ical_js Fixtures.node_ical
           ical_js "first" "second" "both" None
           Documents.first_batch Documents.second_batch
           [] [LibraryError "invalid ical body"] [LibraryError "invalid ical body"]).
  - eexists _, _, _. repeat split; reflexivity.
  - eexists _, _, _. repeat split; reflexivity.
  - eexists _, _, _. repeat split; reflexivity.
  - vm_compute. reflexivity.
  - vm_compute. reflexivity.
Defined.

(** ** The fields of the events *)

Lemma response_body_push_inv
    (try_block : string -> JsValue -> JsValue -> option string -> result (option Event))
    baseUrl obj event :
  response_body try_block baseUrl obj = Push event ->
  exists cleaned eventData, try_block cleaned eventData obj baseUrl = inr (Some event).
Proof.
  unfold response_body, js_get, ret.
  destruct (nullish obj); [discriminate |].
  destruct (negb (truthy _)); [discriminate |].
  destruct (negb (truthy _)); [discriminate |].
  destruct (own_property _ "calendar-data"); try discriminate.
  unfold try_catch.
  destruct (try_block _ _ _ _) as [| [pushed |]] eqn:Htry; try discriminate.
  intros [= <-]. eauto.
Qed.

Lemma js_or_truthy (v d : JsValue) : truthy d = true -> truthy (js_or v d) = true.
Proof. unfold js_or. by destruct (truthy v) eqn:Hv. Qed.

Lemma or_undefined_spec (v : JsValue) : undefined_or_truthy (or_undefined v).
Proof.
  unfold undefined_or_truthy, or_undefined.
  destruct (truthy v) eqn:Hv; auto.
Qed.

Section EventFields.
Context {P : Platform} {L : ICAL.Library} {N : NodeIcal.Library}.

Lemma IcalJs_push_inv baseUrl obj event :
  response_body IcalJs.try_block baseUrl obj = Push event ->
  exists vevent eventData, IcalJs.event_of_vevent vevent eventData obj baseUrl = inr event.
Proof.
  intros (cleaned & eventData & Htry)%response_body_push_inv.
  unfold IcalJs.try_block in Htry. bind_steps Htry.
  destruct (ICAL.getFirstSubcomponent _ _) as [vevent |]; [| discriminate].
  bind_steps Htry. unfold ret in Htry. simplify_eq. eauto.
Qed.

Lemma NodeIcal_push_inv baseUrl obj event :
  response_body NodeIcal.try_block baseUrl obj = Push event ->
  exists vevent eventData, NodeIcal.event_of_vevent vevent eventData obj baseUrl = inr event.
Proof.
  intros (cleaned & eventData & Htry)%response_body_push_inv.
  unfold NodeIcal.try_block in Htry. bind_steps Htry.
  destruct (negb (truthy _)); [discriminate |].
  bind_steps Htry. unfold ret in Htry. simplify_eq. eauto.
Qed.

Lemma parseEvents_of_Forall (v : Backend) (Q : Event -> Prop)
    responseData baseUrl console events :
  (forall obj event, response_body (try_block_of v) baseUrl obj = Push event -> Q event) ->
  (parseEvents_of v responseData baseUrl console).1 = inr events ->
  Forall Q events.
Proof.
  intros Hpush. rewrite parseEvents_of_around. unfold parseEvents_around.
  destruct (bind _ _) as [error | response]; [discriminate |].
  destruct (negb (truthy response)); [by intros [= <-] |].
  intros Hrun. apply Forall_forall. intros event Hin.
  destruct (events_loop_origin _ _ _ _ _ _ Hrun Hin) as [Hnil | (obj & _ & Hobj)];
    [by apply elem_of_nil in Hnil | by eapply Hpush].
Qed.

Lemma IcalJs_event_summary vevent eventData obj baseUrl event :
  IcalJs.event_of_vevent vevent eventData obj baseUrl = inr event ->
  summary event = js_or (ICAL.Event_summary vevent) (JsStr "Untitled Event").
Proof.
  unfold IcalJs.event_of_vevent.
  destruct (ICAL.Event_startDate vevent); try discriminate.
  intros Hrun. bind_steps Hrun. unfold ret in Hrun. by simplify_eq.
Qed.

Lemma NodeIcal_event_summary vevent eventData obj baseUrl event :
  NodeIcal.event_of_vevent vevent eventData obj baseUrl = inr event ->
  summary event = js_or (own_property vevent "summary") (JsStr "Untitled Event").
Proof.
  unfold NodeIcal.event_of_vevent. intros Hrun. bind_steps Hrun.
  unfold js_get, ret, throw in *. destruct (nullish vevent); by simplify_eq.
Qed.

Lemma IcalJs_alarm_trigger (valarm : ICAL.Component) (alarm : Alarm) :
  IcalJs.alarm_of_valarm valarm = Some alarm ->
  exists s, trigger alarm = JsStr s /\ s <> "".
Proof.
  intros Hsome. destruct (IcalJs_alarm_action _ _ Hsome) as [_ Htruthy].
  assert (Hstr : trigger alarm
                 = opt_toString (ICAL.getFirstPropertyValue valarm "trigger")).
  { unfold IcalJs.alarm_of_valarm in Hsome.
    repeat match type of Hsome with
           | context [strict_eq_str ?v ?lit && ?t] => destruct (strict_eq_str v lit && t)
           end; by simplify_eq. }
  rewrite Hstr in *. unfold opt_toString in *.
  destruct (nullish _); [discriminate Htruthy |].
  eexists. split; [done |]. intros Hempty. rewrite Hempty in Htruthy. discriminate Htruthy.
Qed.

Lemma IcalJs_event_shape vevent eventData obj baseUrl event :
  IcalJs.event_of_vevent vevent eventData obj baseUrl = inr event ->
  (exists t, start event = JsDate t JsUndefined) /\
  (exists t, end_ event = JsDate t JsUndefined) /\
  undefined_or_truthy (description event) /\
  undefined_or_truthy (location event) /\
  undefined_or_truthy (startTzid event) /\
  undefined_or_truthy (endTzid event) /\
  Forall (fun alarm => exists s, trigger alarm = JsStr s /\ s <> "") (alarms event).
Proof.
  unfold IcalJs.event_of_vevent.
  destruct (ICAL.Event_startDate vevent) as [| | | | | | | | isDate unix str |];
    try discriminate.
  intros Hrun. bind_steps Hrun. unfold ret in Hrun. simplify_eq. cbn.
  match goal with
  | Hstart : IcalJs.date_of_time (JsTime _ _ _) = inr ?d |- _ =>
      cbn in Hstart; unfold ret in Hstart; injection Hstart as <-
  end.
  split; [unfold new_Date; eauto |]. split.
  - match goal with
    | Hend : (if truthy ?raw then IcalJs.date_of_time ?raw else ret _) = inr ?d |- _ =>
        destruct (truthy raw);
        [destruct raw; try discriminate Hend; cbn in Hend |];
        unfold ret in Hend; injection Hend as <-
    end; destruct isDate; unfold new_Date; eauto.
  - repeat split; try apply or_undefined_spec.
    apply Forall_forall. intros alarm (valarm & _ & Hsome)%list_elem_of_omap.
    by eapply IcalJs_alarm_trigger.
Qed.

Lemma NodeIcal_event_shape vevent eventData obj baseUrl event :
  NodeIcal.event_of_vevent vevent eventData obj baseUrl = inr event ->
  nullish (start event) = false /\
  nullish (end_ event) = false /\
  startTzid event = own_property (start event) "tz" /\
  endTzid event = own_property (end_ event) "tz".
Proof.
  unfold NodeIcal.event_of_vevent. intros Hrun. bind_steps Hrun.
  unfold ret in Hrun. simplify_eq. cbn.
  unfold js_get, ret, throw in *.
  repeat match goal with
         | Hget : (if nullish ?x then _ else _) = inr _ |- _ =>
             destruct (nullish x) eqn:?; [discriminate Hget |];
             injection Hget as <-
         end.
  done.
Qed.
End EventFields.

Lemma response_body_push_data
    `{Platform}
    (try_block : string -> JsValue -> JsValue -> option string -> result (option Event))
    baseUrl obj event :
  response_body try_block baseUrl obj = Push event ->
  exists raw,
    calendar_data_of obj = JsStr raw /\
    try_block (replace_cr_entity raw) (opt_get (own_property obj "propstat") "prop")
      obj baseUrl = inr (Some event).
Proof.
  unfold response_body, calendar_data_of, js_get, ret.
  destruct (nullish obj); [discriminate |].
  destruct (negb (truthy _)); [discriminate |].
  destruct (negb (truthy _)); [discriminate |].
  destruct (own_property _ "calendar-data") as [| | | | raw | | | | |]; try discriminate.
  unfold try_catch.
  destruct (try_block _ _ _ _) as [| [pushed |]] eqn:Htry; try discriminate.
  intros [= <-]. eauto.
Qed.

(** X6.  Every event parseEvents returns, in either variant, was built from a
    record for whose calendar-data the back-end delivered a summary, and the
    summary of the event is that one when it is truthy and "Untitled Event"
    when it is undefined or empty; so it is never empty. *)
Theorem summary_is_delivered_or_placeholder
    `{Platform, ICAL.Library, NodeIcal.Library} (v : Backend)
    (responseData : string) (baseUrl : option string) (console : list Exn)
    (events : list Event) :
  (parseEvents_of v responseData baseUrl console).1 = inr events ->
  Forall (fun event =>
            exists obj delivered,
              response_body (try_block_of v) baseUrl obj = Push event /\
              delivered_summary v obj = Some delivered /\
              summary event
              = (if truthy delivered then delivered else JsStr "Untitled Event") /\
              truthy (summary event) = true) events.
Proof.
  apply parseEvents_of_Forall. intros obj event Hpush. exists obj.
  destruct (response_body_push_data _ _ _ _ Hpush) as (raw & Hraw & Htry).
  unfold delivered_summary. rewrite Hraw. destruct v; cbn in Htry, Hpush |- *.
  - unfold IcalJs.try_block in Htry. bind_inv Htry.
    destruct (ICAL.getFirstSubcomponent _ _) as [vevent |]; [| discriminate].
    bind_inv Htry. unfold ret in Htry. simplify_eq. cbn.
    match goal with
    | Hevent : IcalJs.event_of_vevent _ _ _ _ = inr _ |- _ =>
        pose proof (IcalJs_event_summary _ _ _ _ _ Hevent) as Hsummary
    end.
    eexists. split; [exact Hpush |]. split; [reflexivity |].
    split; [exact Hsummary |]. rewrite Hsummary. by apply js_or_truthy.
  - unfold NodeIcal.try_block in Htry. bind_inv Htry. bind_inv Htry.
    destruct (negb (truthy _)); [discriminate |].
    bind_inv Htry. unfold ret in Htry. simplify_eq.
    match goal with
    | Hevent : NodeIcal.event_of_vevent _ _ _ _ = inr _ |- _ =>
        pose proof (NodeIcal_event_summary _ _ _ _ _ Hevent) as Hsummary
    end.
    eexists. split; [exact Hpush |]. split; [reflexivity |].
    split; [exact Hsummary |]. rewrite Hsummary. by apply js_or_truthy.
Qed.

(** Three records, with the summaries "Standup", the empty string and none:
    the events are titled "Standup", "Untitled Event", "Untitled Event". *)
Lemma summary_is_delivered_or_placeholder_witness :
  (exists events,
     (@parseEvents_of Documents.titled_platform Documents.titled_ical_js
        Documents.titled_node_ical ical_js "" None []).1 = inr events /\
     summary <$> events
     = [JsStr "Standup"; JsStr "Untitled Event"; JsStr "Untitled Event"] /\
     Forall (fun event =>
               exists obj delivered,
                 response_body
                   (@try_block_of Documents.titled_platform Documents.titled_ical_js
                      Documents.titled_node_ical ical_js) None obj = Push event /\
                 @delivered_summary Documents.titled_ical_js Documents.titled_node_ical
                   ical_js obj = Some delivered /\
                 summary event
                 = (if truthy delivered then delivered else JsStr "Untitled Event") /\
                 truthy (summary event) = true) events) /\
  (exists events,
     (@parseEvents_of Documents.titled_platform Documents.titled_ical_js
        Documents.titled_node_ical node_ical "" None []).1 = inr events /\
     summary <$> events
     = [JsStr "Standup"; JsStr "Untitled Event"; JsStr "Untitled Event"] /\
     Forall (fun event =>
               exists obj delivered,
                 response_body
                   (@try_block_of Documents.titled_platform Documents.titled_ical_js
                      Documents.titled_node_ical node_ical) None obj = Push event /\
                 @delivered_summary Documents.titled_ical_js Documents.titled_node_ical
                   node_ical obj = Some delivered /\
                 summary event
                 = (if truthy delivered then delivered else JsStr "Untitled Event") /\
                 truthy (summary event) = true) events).
Proof.
  split.
  - eexists. split; [vm_compute; reflexivity |]. split; [reflexivity |].
    apply (@summary_is_delivered_or_placeholder Documents.titled_platform
             Documents.titled_ical_js Documents.titled_node_ical ical_js "" None []).
    vm_compute. reflexivity.
  - eexists. split; [vm_compute; reflexivity |]. split; [reflexivity |].
    apply (@summary_is_delivered_or_placeholder Documents.titled_platform
             Documents.titled_ical_js Documents.titled_node_ical node_ical "" None []).
    vm_compute. reflexivity.
Defined.

(** X7.  Over ical.js every returned event has Dates for start and end, optional
    texts and timezone ids that are undefined or truthy (never null or
    empty), and alarms whose trigger is a non-empty string. *)
Theorem ical_js_event_fields `{Platform, ICAL.Library}
    (responseData : string) (baseUrl : option string) (console : list Exn)
    (events : list Event) :
  (IcalJs.parseEvents responseData baseUrl console).1 = inr events ->
  Forall (fun event =>
            (exists t, start event = JsDate t JsUndefined) /\
            (exists t, end_ event = JsDate t JsUndefined) /\
            undefined_or_truthy (description event) /\
            undefined_or_truthy (location event) /\
            undefined_or_truthy (startTzid event) /\
            undefined_or_truthy (endTzid event) /\
            Forall (fun alarm => exists s, trigger alarm = JsStr s /\ s <> "")
              (alarms event))
    events.
Proof.
  intros Hrun.
  apply (@parseEvents_of_Forall _ _ Fixtures.node_ical ical_js _
           responseData baseUrl console events); [| exact Hrun].
  intros obj event (vevent & eventData & Hevent)%IcalJs_push_inv.
  by eapply IcalJs_event_shape.
Qed.

Lemma ical_js_event_fields_witness :
  Forall (fun event =>
            (exists t, start event = JsDate t JsUndefined) /\
            (exists t, end_ event = JsDate t JsUndefined) /\
            undefined_or_truthy (description event) /\
            undefined_or_truthy (location event) /\
            undefined_or_truthy (startTzid event) /\
            undefined_or_truthy (endTzid event) /\
            Forall (fun alarm => exists s, trigger alarm = JsStr s /\ s <> "")
              (alarms event))
    [Fixtures.whole_day_event "/cal/1.ics" (JsStr "e1")].
Proof.
  apply (@ical_js_event_fields Fixtures.whole_day_platform Fixtures.ical_js "" None []).
  vm_compute. reflexivity.
Defined.

(** X8.  Over node-ical every returned event has a start and an end (an event
    object without one of them is logged and skipped, as reading its [tz]
    throws), and its timezone ids are the [tz] of those two values. *)
Theorem node_ical_event_fields `{Platform, NodeIcal.Library}
    (responseData : string) (baseUrl : option string) (console : list Exn)
    (events : list Event) :
  (NodeIcal.parseEvents responseData baseUrl console).1 = inr events ->
  Forall (fun event =>
            nullish (start event) = false /\
            nullish (end_ event) = false /\
            startTzid event = own_property (start event) "tz" /\
            endTzid event = own_property (end_ event) "tz")
    events.
Proof.
  intros Hrun.
  apply (@parseEvents_of_Forall _ Fixtures.ical_js _ node_ical _
           responseData baseUrl console events); [| exact Hrun].
  intros obj event (vevent & eventData & Hevent)%NodeIcal_push_inv.
  by eapply NodeIcal_event_shape.
Qed.

Lemma node_ical_event_fields_witness :
  exists events,
    (@NodeIcal.parseEvents Fixtures.whole_day_platform Fixtures.node_ical "" None []).1
    = inr events /\
    Forall (fun event =>
              nullish (start event) = false /\
              nullish (end_ event) = false /\
              startTzid event = own_property (start event) "tz" /\
              endTzid event = own_property (end_ event) "tz")
      events.
Proof.
  eexists. split; [vm_compute; reflexivity |].
  apply (@node_ical_event_fields Fixtures.whole_day_platform Fixtures.node_ical "" None []).
  vm_compute. reflexivity.
Defined.

(** ** Dates over ical.js *)

(** X9.  Over ical.js, for a start and a DTEND that are times within the range of
    a Date: start is the start instant, wholeDay the [isDate] flag of the
    start, end the raw end less one day for a whole-day event and the raw end
    otherwise; a whole-day event of a single day ends when it starts. *)
Theorem ical_js_event_dates `{Platform, ICAL.Library}
    (vevent : ICAL.Component) (eventData obj : JsValue) (baseUrl : option string)
    (event : Event) (isDate endIsDate : bool) (unix rawEnd : Z) (str endStr : string) :
  IcalJs.event_of_vevent vevent eventData obj baseUrl = inr event ->
  ICAL.Event_startDate vevent = JsTime isDate (Some unix) str ->
  ICAL.getFirstPropertyValue vevent "dtend" = JsTime endIsDate (Some rawEnd) endStr ->
  in_Date_range (1000 * unix) ->
  in_Date_range (1000 * rawEnd) ->
  in_Date_range (1000 * rawEnd - DAY_MS) ->
  start event = JsDate (Some (1000 * unix)%Z) JsUndefined /\
  wholeDay event = isDate /\
  end_ event
  = JsDate (Some (if isDate then 1000 * rawEnd - DAY_MS else 1000 * rawEnd)%Z) JsUndefined /\
  (isDate = true -> rawEnd = (unix + 86400)%Z -> end_ event = start event).
Proof.
  unfold IcalJs.event_of_vevent, ICAL.Event_endDate.
  intros Hrun Hstart Hend Hunix Hraw Hshifted. rewrite Hstart, Hend in Hrun.
  cbn [truthy IcalJs.date_of_time bind ret fmap option_fmap option_map] in Hrun.
  rewrite (new_Date_in_range _ Hunix), (new_Date_in_range _ Hraw) in Hrun.
  bind_steps Hrun. unfold ret in Hrun. simplify_eq. cbn.
  split; [done |]. split; [done |].
  assert (Hend' : (if isDate
                   then new_Date (Some (1000 * rawEnd - DAY_MS)%Z)
                   else JsDate (Some (1000 * rawEnd)%Z) JsUndefined)
                  = JsDate (Some (if isDate then 1000 * rawEnd - DAY_MS
                                  else 1000 * rawEnd)%Z) JsUndefined).
  { destruct isDate; [by apply new_Date_in_range | done]. }
  split; [exact Hend' |].
  intros -> ->. rewrite Hend'. unfold DAY_MS. do 2 f_equal. lia.
Qed.

Lemma ical_js_event_dates_witness :
  exists event,
    @IcalJs.event_of_vevent Fixtures.whole_day_platform Fixtures.ical_js
      Documents.single_day_vevent Documents.plain_prop Documents.plain_record None
    = inr event /\
    start event = JsDate (Some (1000 * Fixtures.jan10)%Z) JsUndefined /\
    wholeDay event = true /\
    end_ event = JsDate (Some (1000 * Fixtures.jan11 - DAY_MS)%Z) JsUndefined /\
    (true = true -> Fixtures.jan11 = (Fixtures.jan10 + 86400)%Z ->
     end_ event = start event).
Proof.
  eexists. split; [vm_compute; reflexivity |].
  apply (@ical_js_event_dates Fixtures.whole_day_platform Fixtures.ical_js
           Documents.single_day_vevent Documents.plain_prop Documents.plain_record None
           _ true true Fixtures.jan10 Fixtures.jan11 "2024-01-10" "2024-01-11").
  - vm_compute. reflexivity.
  - reflexivity.
  - reflexivity.
  - unfold in_Date_range. vm_compute. discriminate.
  - unfold in_Date_range. vm_compute. discriminate.
  - unfold in_Date_range. vm_compute. discriminate.
Defined.

Lemma response_body_try
    (try_block : string -> JsValue -> JsValue -> option string -> result (option Event))
    baseUrl obj raw :
  nullish obj = false ->
  calendar_data_of obj = JsStr raw ->
  raw <> "" ->
  response_body try_block baseUrl obj
  = try_catch (try_block (replace_cr_entity raw)
                 (opt_get (own_property obj "propstat") "prop") obj baseUrl).
Proof.
  unfold response_body, calendar_data_of, js_get, ret. intros -> Hraw Hne.
  destruct (opt_get (own_property obj "propstat") "prop") eqn:Hprop;
    cbn in Hraw; try discriminate Hraw.
  cbn. rewrite Hraw. cbn. by destruct (String.eqb_spec raw "").
Qed.

(** X10.  Dates are not validated: when the start of the first VEVENT of a
    record is a time and the time of its DTEND is NaN or beyond the range of
    a Date, the event is built all the same (given that the RRULE, if any,
    is accepted and the href resolves), with the invalid Date as its end,
    for whole-day and timed events alike. *)
Theorem ical_js_invalid_end_is_kept `{Platform, ICAL.Library}
    (baseUrl : option string) (obj : JsValue) (raw : string)
    (vcalendar vevent : ICAL.Component)
    (isDate endIsDate : bool) (unix rawEnd : option Z) (str endStr : string)
    (rule : Recurrence) (resolved : JsValue) :
  nullish obj = false ->
  calendar_data_of obj = JsStr raw ->
  raw <> "" ->
  ICAL.parse (replace_cr_entity raw) = inr vcalendar ->
  ICAL.getFirstSubcomponent vcalendar "vevent" = Some vevent ->
  ICAL.Event_startDate vevent = JsTime isDate unix str ->
  ICAL.getFirstPropertyValue vevent "dtend" = JsTime endIsDate rawEnd endStr ->
  TimeClip (Z.mul 1000 <$> rawEnd) = None ->
  IcalJs.recurrence_of vevent = inr rule ->
  resolve_href (own_property obj "href") baseUrl = inr resolved ->
  exists event,
    response_body IcalJs.try_block baseUrl obj = Push event /\
    end_ event = JsDate None JsUndefined /\
    wholeDay event = isDate /\
    start event = new_Date (Z.mul 1000 <$> unix) /\
    href event = resolved.
Proof.
  intros Hobj Hraw Hne Hparse Hvevent Hstart Hend Hclip Hrule Hhref.
  rewrite (response_body_try _ _ _ _ Hobj Hraw Hne).
  assert (Hprop : nullish (opt_get (own_property obj "propstat") "prop") = false).
  { unfold calendar_data_of in Hraw.
    by destruct (opt_get (own_property obj "propstat") "prop"). }
  unfold IcalJs.try_block. rewrite Hparse. cbn [bind]. rewrite Hvevent.
  unfold IcalJs.event_of_vevent, ICAL.Event_endDate. rewrite Hstart, Hend.
  cbn [truthy IcalJs.date_of_time bind ret]. rewrite Hrule. cbn [bind].
  unfold js_get. rewrite Hprop, Hobj. cbn [bind ret]. rewrite Hhref. cbn [bind ret].
  eexists. split; [reflexivity |]. cbn.
  split; [| done]. unfold new_Date at 1 2. rewrite Hclip. by destruct isDate.
Qed.

(** A timed and a whole-day event whose DTEND ical.js read as NaN. *)
Lemma ical_js_invalid_end_is_kept_witness :
  (exists event,
     response_body (@IcalJs.try_block Documents.lone_calendar Documents.invalid_end_ical_js)
       None Documents.unreadable_end_record = Push event /\
     end_ event = JsDate None JsUndefined /\
     wholeDay event = false /\
     start event = new_Date (Z.mul 1000 <$> Some Fixtures.jan10) /\
     href event = JsStr "/cal/n.ics") /\
  (exists event,
     response_body (@IcalJs.try_block Documents.lone_calendar Documents.invalid_end_ical_js)
       None Documents.unreadable_day_record = Push event /\
     end_ event = JsDate None JsUndefined /\
     wholeDay event = true /\
     start event = new_Date (Z.mul 1000 <$> Some Fixtures.jan10) /\
     href event = JsStr "/cal/f.ics").
Proof.
  split.
  - apply (@ical_js_invalid_end_is_kept Documents.lone_calendar
             Documents.invalid_end_ical_js None Documents.unreadable_end_record
             (Fixtures.escaped_lines Documents.unreadable_end_ics)
             (ICAL.mkComponent "vcalendar" [] [Documents.unreadable_end_vevent])
             Documents.unreadable_end_vevent
             false false (Some Fixtures.jan10) None
             "2024-01-10T00:00:00Z" "NaN-NaN-NaNTNaN:NaN:NaN" NoRecurrence
             (JsStr "/cal/n.ics"));
      try reflexivity; try discriminate; vm_compute; reflexivity.
  - apply (@ical_js_invalid_end_is_kept Documents.lone_calendar
             Documents.invalid_end_ical_js None Documents.unreadable_day_record
             (Fixtures.escaped_lines Documents.unreadable_day_ics)
             (ICAL.mkComponent "vcalendar" [] [Documents.unreadable_day_vevent])
             Documents.unreadable_day_vevent
             true true (Some Fixtures.jan10) None
             "2024-01-10" "NaN-NaN-NaN" NoRecurrence
             (JsStr "/cal/f.ics"));
      try reflexivity; try discriminate; vm_compute; reflexivity.
Defined.

(** ** When an alarm is built, and with which attendees *)

Lemma elem_of_known_actions (v : JsValue) :
  v ∈ known_actions <->
  strict_eq_str v "DISPLAY" || strict_eq_str v "EMAIL" || strict_eq_str v "AUDIO" = true.
Proof.
  unfold known_actions. rewrite !orb_true_iff, !strict_eq_str_true.
  rewrite !elem_of_cons, elem_of_nil. tauto.
Qed.

(** X11.  An alarm is built exactly for a VALARM whose action is one of the three
    strings and whose trigger is truthy: over ical.js the [toString()] of the
    first trigger value, non-empty; over node-ical whatever the [trigger]
    property of the alarm object holds. *)
Theorem alarm_is_built_iff `{Platform} (valarm : ICAL.Component) (alarm_object : JsValue) :
  (is_Some (IcalJs.alarm_of_valarm valarm) <->
   ICAL.getFirstPropertyValue valarm "action" ∈ known_actions /\
   truthy (opt_toString (ICAL.getFirstPropertyValue valarm "trigger")) = true) /\
  ((exists alarm, NodeIcal.alarm_of_valarm alarm_object = inr (Some alarm)) <->
   nullish alarm_object = false /\
   own_property alarm_object "action" ∈ known_actions /\
   truthy (own_property alarm_object "trigger") = true).
Proof.
  split.
  - rewrite elem_of_known_actions. unfold IcalJs.alarm_of_valarm.
    destruct (strict_eq_str _ "DISPLAY"), (strict_eq_str _ "EMAIL"),
      (strict_eq_str _ "AUDIO"), (truthy _); cbn;
      split; intros Hyp; try done; try (by destruct Hyp as [? [=]]);
      try (by destruct Hyp); eauto.
  - rewrite elem_of_known_actions. unfold NodeIcal.alarm_of_valarm, js_get, ret, throw.
    destruct (nullish alarm_object); cbn;
      [split; intros Hyp; [by destruct Hyp as [? [=]] | by destruct Hyp] |].
    destruct (strict_eq_str _ "DISPLAY"), (strict_eq_str _ "EMAIL"),
      (strict_eq_str _ "AUDIO"), (truthy _); cbn;
      split; intros Hyp; try done; try (by destruct Hyp as [? [=]]);
      try (by destruct Hyp as (? & ? & ?)); eauto.
Qed.

Lemma alarm_is_built_iff_witness :
  is_Some (@IcalJs.alarm_of_valarm Fixtures.alarms_platform Fixtures.email_with_trigger) /\
  exists alarm,
    @NodeIcal.alarm_of_valarm Fixtures.alarms_platform Fixtures.email_with_trigger_object
    = inr (Some alarm).
Proof.
  destruct (@alarm_is_built_iff Fixtures.alarms_platform
              Fixtures.email_with_trigger Fixtures.email_with_trigger_object)
    as [Hical Hnode].
  split.
  - apply Hical. split; [| reflexivity].
    apply elem_of_known_actions. reflexivity.
  - apply Hnode. split; [reflexivity |]. split; [| reflexivity].
    apply elem_of_known_actions. reflexivity.
Defined.

Lemma strings_of_filter (vs : list JsValue) :
  JsStr <$> IcalJs.strings_of vs = filter (fun v => is_string v = true) vs.
Proof.
  induction vs as [| v rest IH]; [done |]. rewrite filter_cons.
  destruct v; cbn in *; case_decide; try done; by f_equal.
Qed.

(** X12.  Over ical.js the attendees of an EMAIL alarm are the first values of all
    its attendee properties that are strings, in order: no more than there are
    such properties, and as many when every first value is a string. *)
Theorem ical_js_email_attendees `{Platform} (valarm : ICAL.Component) :
  ICAL.getFirstPropertyValue valarm "action" = JsStr "EMAIL" ->
  truthy (opt_toString (ICAL.getFirstPropertyValue valarm "trigger")) = true ->
  exists description summary attendees,
    IcalJs.alarm_of_valarm valarm
    = Some (EMAIL (opt_toString (ICAL.getFirstPropertyValue valarm "trigger"))
              description summary attendees) /\
    JsStr <$> attendees
    = filter (fun v => is_string v = true)
        (ICAL.getFirstValue <$> ICAL.getAllProperties valarm "attendee") /\
    (length attendees <= length (ICAL.getAllProperties valarm "attendee"))%nat /\
    (Forall (fun p => is_string (ICAL.getFirstValue p) = true)
       (ICAL.getAllProperties valarm "attendee") ->
     length attendees = length (ICAL.getAllProperties valarm "attendee")).
Proof.
  intros Haction Htrigger.
  destruct (IcalJs_email_attendees valarm Haction Htrigger) as (description & summary & ->).
  eexists _, _, _. split; [reflexivity |].
  generalize (ICAL.getAllProperties valarm "attendee"). intros props.
  repeat split.
  - apply strings_of_filter.
  - rewrite <- (length_fmap ICAL.getFirstValue props).
    rewrite <- (length_fmap JsStr (IcalJs.strings_of _)), strings_of_filter.
    apply length_filter.
  - intros Hall. rewrite <- (length_fmap ICAL.getFirstValue props).
    apply strings_of_all_strings. by apply Forall_fmap.
Qed.

Lemma ical_js_email_attendees_witness :
  exists description summary attendees,
    @IcalJs.alarm_of_valarm Fixtures.alarms_platform Documents.email_with_odd_attendee
    = Some (EMAIL
              (@opt_toString Fixtures.alarms_platform
                 (ICAL.getFirstPropertyValue Documents.email_with_odd_attendee "trigger"))
              description summary attendees) /\
    JsStr <$> attendees
    = filter (fun v => is_string v = true)
        (ICAL.getFirstValue
           <$> ICAL.getAllProperties Documents.email_with_odd_attendee "attendee") /\
    (length attendees
     <= length (ICAL.getAllProperties Documents.email_with_odd_attendee "attendee"))%nat /\
    (Forall (fun p => is_string (ICAL.getFirstValue p) = true)
       (ICAL.getAllProperties Documents.email_with_odd_attendee "attendee") ->
     length attendees
     = length (ICAL.getAllProperties Documents.email_with_odd_attendee "attendee")).
Proof.
  apply (@ical_js_email_attendees Fixtures.alarms_platform
           Documents.email_with_odd_attendee); reflexivity.
Defined.

(** X13.  Over node-ical an EMAIL alarm never has more than one attendee: none when
    the [attendee] property of the alarm object is falsy, otherwise the one
    string [toString()] makes of it, be it a string, an object with
    parameters or an array of several. *)
Theorem node_ical_email_attendees `{Platform}
    (alarm_object trigger description summary : JsValue) (attendees : list string) :
  NodeIcal.alarm_of_valarm alarm_object
  = inr (Some (EMAIL trigger description summary attendees)) ->
  attendees
  = (if truthy (own_property alarm_object "attendee")
     then [js_toString (own_property alarm_object "attendee")] else []) /\
  (length attendees <= 1)%nat.
Proof.
  intros Hsome.
  destruct (NodeIcal_email_attendees _ _ Hsome eq_refl) as (t & d & s & Heq).
  injection Heq as -> -> -> ->.
  split; [done |]. destruct (truthy _); cbn; lia.
Qed.

Lemma node_ical_email_attendees_witness :
  ["[object Object]"]
  = (if truthy (own_property Documents.email_with_parameters_object "attendee")
     then [@js_toString Fixtures.alarms_platform
             (own_property Documents.email_with_parameters_object "attendee")]
     else []) /\
  (length ["[object Object]"] <= 1)%nat.
Proof.
  apply (@node_ical_email_attendees Fixtures.alarms_platform
           Documents.email_with_parameters_object
           (JsStr "-PT15M") JsUndefined JsUndefined ["[object Object]"]).
  vm_compute. reflexivity.
Defined.

(** ** Recurrence rules over ical.js *)

(** X14.  The decomposed rule keeps the interval and the BY-parts as they are,
    names a frequency only for DAILY, WEEKLY, MONTHLY and YEARLY (a rule by
    the second, minute or hour comes out without one), and never has the
    count 0: a count of 0 is dropped like an absent one. *)
Theorem parseRecurrence_fields `{ICAL.Library} (recur : ICAL.Recur) :
  count (IcalJs.parseRecurrence recur) <> Some 0%Z /\
  (count (IcalJs.parseRecurrence recur) = None <->
   ICAL.count recur = None \/ ICAL.count recur = Some 0%Z) /\
  (freq (IcalJs.parseRecurrence recur) = None <->
   ICAL.freq recur ∈ [None; Some ICAL.SECONDLY; Some ICAL.MINUTELY; Some ICAL.HOURLY]) /\
  interval (IcalJs.parseRecurrence recur) = ICAL.interval recur /\
  byday (IcalJs.parseRecurrence recur) = ICAL.BYDAY recur /\
  bymonthday (IcalJs.parseRecurrence recur) = ICAL.BYMONTHDAY recur /\
  bymonth (IcalJs.parseRecurrence recur) = ICAL.BYMONTH recur /\
  (is_Some (until (IcalJs.parseRecurrence recur)) <-> is_Some (ICAL.until recur)).
Proof.
  destruct recur as [f i c u bd bmd bm]. cbn. repeat split; try done.
  - destruct c as [n |]; [| done]. destruct (Z.eqb_spec n 0); [done |]. by intros [= ->].
  - destruct c as [n |]; [| auto]. destruct (Z.eqb_spec n 0) as [-> | ?]; [auto | done].
  - intros [Hnone | Hzero]; [by rewrite Hnone | by rewrite Hzero].
  - destruct f as [[] |]; try discriminate; intros _; set_solver.
  - destruct f as [[] |]; try done; intros Hin;
      repeat (apply elem_of_cons in Hin as [Heq | Hin]; [discriminate Heq |]);
      by apply elem_of_nil in Hin.
  - destruct u; cbn; [eauto | by intros [? ?]].
  - destruct u; cbn; [eauto | by intros [? ?]].
Qed.

Lemma parseRecurrence_fields_witness :
  count (@IcalJs.parseRecurrence Documents.rrule_ical_js Documents.hourly_twice)
  <> Some 0%Z /\
  freq (@IcalJs.parseRecurrence Documents.rrule_ical_js Documents.hourly_twice) = None.
Proof.
  destruct (@parseRecurrence_fields Documents.rrule_ical_js Documents.hourly_twice)
    as (Hcount & _ & Hfreq & _).
  split; [exact Hcount |]. apply Hfreq.
  apply list_elem_of_further, list_elem_of_further, list_elem_of_further, list_elem_of_here.
Defined.

(** X15.  An RRULE that [ICAL.Recur.fromString] rejects costs the event: the [try]
    block throws (so the record is logged and skipped) rather than building
    the event without its rule. *)
Theorem rejected_rrule_drops_the_event `{Platform, ICAL.Library}
    (cleaned : string) (vcalendar vevent : ICAL.Component) (rruleProp : ICAL.Property)
    (error : Exn) (eventData obj : JsValue) (baseUrl : option string) :
  ICAL.parse cleaned = inr vcalendar ->
  ICAL.getFirstSubcomponent vcalendar "vevent" = Some vevent ->
  ICAL.getFirstProperty vevent "rrule" = Some rruleProp ->
  truthy (ICAL.getFirstValue rruleProp) = true ->
  ICAL.Recur_fromString (js_toString (ICAL.getFirstValue rruleProp)) = inl error ->
  fails (IcalJs.try_block cleaned eventData obj baseUrl).
Proof.
  intros Hparse Hvevent Hprop Htruthy Hrecur.
  unfold IcalJs.try_block, fails. rewrite Hparse. cbn [bind]. rewrite Hvevent.
  unfold IcalJs.event_of_vevent, IcalJs.recurrence_of.
  rewrite Hprop, Htruthy, Hrecur.
  destruct (ICAL.Event_startDate vevent); cbn; eauto.
  destruct (ICAL.Event_endDate vevent) as [| rawEnd]; cbn; eauto.
  destruct (if truthy rawEnd then IcalJs.date_of_time rawEnd else _); cbn; eauto.
Qed.

Lemma rejected_rrule_drops_the_event_witness :
  fails (@IcalJs.try_block Fixtures.whole_day_platform Documents.rrule_ical_js
           "sometimes" Documents.plain_prop Documents.plain_record None).
Proof.
  eapply (@rejected_rrule_drops_the_event Fixtures.whole_day_platform
            Documents.rrule_ical_js "sometimes"); reflexivity.
Defined.

(** ** The base URL *)

Section BaseUrl.
Context {P : Platform} {L : ICAL.Library} {N : NodeIcal.Library}.

Lemma resolve_href_base (h : JsValue) (base : string) :
  base <> "" -> resolve_href h (Some base) = URL_toString h base.
Proof. intros Hbase. cbn. by destruct (String.eqb_spec base ""). Qed.

Ltac split_binds :=
  repeat match goal with
         | |- context [bind ?m _] => destruct m; cbn [bind]; cbn beta iota; eauto
         end.

Lemma IcalJs_event_base vevent eventData obj (base : string) :
  base <> "" ->
  match IcalJs.event_of_vevent vevent eventData obj None with
  | inr event =>
      IcalJs.event_of_vevent vevent eventData obj (Some base)
      = bind (URL_toString (href event) base) (fun u => ret (with_href event u))
  | inl error => fails (IcalJs.event_of_vevent vevent eventData obj (Some base))
  end.
Proof.
  intros Hbase. unfold IcalJs.event_of_vevent, fails, resolve_href, throw, ret.
  destruct (String.eqb_spec base ""); [done |]. cbn [bind].
  destruct (ICAL.Event_startDate vevent); eauto.
  split_binds.
Qed.

Lemma NodeIcal_event_base vevent eventData obj (base : string) :
  base <> "" ->
  match NodeIcal.event_of_vevent vevent eventData obj None with
  | inr event =>
      NodeIcal.event_of_vevent vevent eventData obj (Some base)
      = bind (URL_toString (href event) base) (fun u => ret (with_href event u))
  | inl error => fails (NodeIcal.event_of_vevent vevent eventData obj (Some base))
  end.
Proof.
  intros Hbase. unfold NodeIcal.event_of_vevent, fails, resolve_href, throw, ret.
  destruct (String.eqb_spec base ""); [done |]. cbn [bind].
  split_binds.
Qed.

Lemma try_block_base (v : Backend) cleaned eventData obj (base : string) :
  base <> "" ->
  match try_block_of v cleaned eventData obj None with
  | inr (Some event) =>
      try_block_of v cleaned eventData obj (Some base)
      = bind (URL_toString (href event) base) (fun u => ret (Some (with_href event u)))
  | inr None => try_block_of v cleaned eventData obj (Some base) = inr None
  | inl error => fails (try_block_of v cleaned eventData obj (Some base))
  end.
Proof.
  intros Hbase. destruct v; cbn.
  - unfold IcalJs.try_block, fails.
    destruct (ICAL.parse cleaned) as [| vcalendar]; cbn; eauto.
    destruct (ICAL.getFirstSubcomponent vcalendar "vevent") as [vevent |]; [| done].
    pose proof (IcalJs_event_base vevent eventData obj base Hbase) as Hevent.
    destruct (IcalJs.event_of_vevent vevent eventData obj None); cbn.
    + destruct Hevent as [error ->]. cbn. eauto.
    + rewrite Hevent. by destruct (URL_toString _ base).
  - unfold NodeIcal.try_block, fails.
    destruct (NodeIcal.parseICS cleaned) as [| jcalData]; cbn; eauto.
    destruct (NodeIcal.find_VEVENT _) as [| vevent]; cbn; eauto.
    destruct (negb (truthy vevent)); [done |].
    pose proof (NodeIcal_event_base vevent eventData obj base Hbase) as Hevent.
    destruct (NodeIcal.event_of_vevent vevent eventData obj None); cbn.
    + destruct Hevent as [error ->]. cbn. eauto.
    + rewrite Hevent. by destruct (URL_toString _ base).
Qed.

Lemma calendar_of_response_base res (base : string) :
  base <> "" ->
  calendar_of_response res (Some base)
  = match calendar_of_response res None with
    | inr (Some calendar) =>
        bind (URL_toString (url calendar) base)
          (fun u => ret (Some (with_url calendar u)))
    | other => other
    end.
Proof.
  intros Hbase. unfold calendar_of_response.
  repeat match goal with
         | |- context [bind ?m _] =>
             lazymatch m with
             | resolve_href _ _ => fail
             | js_get _ "getctag" => fail
             | _ => destruct m eqn:?; cbn [bind]; try reflexivity
             end
         | |- context [if negb ?b then _ else _] =>
             destruct b; cbn [negb]; try reflexivity
         end.
  rewrite (resolve_href_base _ _ Hbase). cbn [resolve_href bind ret].
  match goal with
  | Hdn : js_get ?prop "displayname" = inr _ |- _ =>
      unfold js_get in Hdn |- *; destruct (nullish prop); [discriminate Hdn |]
  end.
  cbn. by destruct (URL_toString _ base).
Qed.
End BaseUrl.

(** X16.  With a base URL, parseEvents does to a record what it does without one,
    except that the href is resolved: a record that yields an event yields
    the same event with the resolved href, or is logged and skipped when the
    URL constructor throws; a skipped record stays skipped. *)
Theorem base_url_resolves_the_href_of_an_event
    `{Platform, ICAL.Library, NodeIcal.Library} (v : Backend)
    (base : string) (obj : JsValue) :
  base <> "" ->
  match response_body (try_block_of v) None obj with
  | Push event =>
      response_body (try_block_of v) (Some base) obj
      = match URL_toString (href event) base with
        | inr u => Push (with_href event u)
        | inl error => Caught error
        end
  | Caught _ => exists error, response_body (try_block_of v) (Some base) obj = Caught error
  | other => response_body (try_block_of v) (Some base) obj = other
  end.
Proof.
  intros Hbase. unfold response_body.
  destruct (js_get obj "propstat") as [| propstat]; [done |].
  destruct (negb (truthy _)); [done |].
  destruct (negb (truthy _)); [done |].
  destruct (own_property _ "calendar-data") as [| | | | raw | | | | |]; try done.
  pose proof (try_block_base v (replace_cr_entity raw) (opt_get propstat "prop") obj
                base Hbase) as Htry.
  unfold try_catch.
  destruct (try_block_of v _ _ _ None) as [error | [event |]].
  - destruct Htry as [error' ->]. eauto.
  - rewrite Htry. by destruct (URL_toString _ base).
  - by rewrite Htry.
Qed.

Lemma base_url_resolves_the_href_of_an_event_witness :
  response_body
    (@try_block_of Documents.batches Fixtures.ical_js Fixtures.node_ical ical_js)
    (Some "https://dav.example.com")
    (Fixtures.event_response "/cal/a.ics" (JsStr "a1") Fixtures.whole_day_ics)
  = Push (Fixtures.whole_day_event "https://dav.example.com/cal/a.ics" (JsStr "a1")) /\
  response_body
    (@try_block_of Documents.batches Fixtures.ical_js Fixtures.node_ical ical_js)
    (Some "https://dav.example.com") Documents.odd_href_record
  = Caught (TypeError "Invalid URL").
Proof.
  split.
  - exact (@base_url_resolves_the_href_of_an_event
             Documents.batches Fixtures.ical_js Fixtures.node_ical ical_js
             "https://dav.example.com"
             (Fixtures.event_response "/cal/a.ics" (JsStr "a1") Fixtures.whole_day_ics)
             ltac:(discriminate)).
  - exact (@base_url_resolves_the_href_of_an_event
             Documents.batches Fixtures.ical_js Fixtures.node_ical ical_js
             "https://dav.example.com" Documents.odd_href_record
             ltac:(discriminate)).
Defined.

(** X17.  With a base URL, parseCalendars does to a record what it does without
    one, except that the url of a calendar is resolved; when the URL
    constructor throws, the error is the result of the turn, and so of the
    whole call. *)
Theorem base_url_resolves_the_url_of_a_calendar `{Platform}
    (base : string) (res : JsValue) (rest : list JsValue) (calendars : list Calendar) :
  base <> "" ->
  calendar_of_response res (Some base)
  = match calendar_of_response res None with
    | inr (Some calendar) =>
        bind (URL_toString (url calendar) base)
          (fun u => ret (Some (with_url calendar u)))
    | other => other
    end /\
  (forall calendar error,
      calendar_of_response res None = inr (Some calendar) ->
      URL_toString (url calendar) base = inl error ->
      calendars_loop (res :: rest) (Some base) calendars = inl error).
Proof.
  intros Hbase. pose proof (calendar_of_response_base res base Hbase) as Hturn.
  split; [exact Hturn |].
  intros calendar error Hnone Hurl. cbn. rewrite Hturn, Hnone, Hurl. done.
Qed.

Lemma base_url_resolves_the_url_of_a_calendar_witness :
  @calendar_of_response Documents.lone_calendar Fixtures.work_response
    (Some "https://dav.example.com")
  = inr (Some {| displayName := JsStr "Work";
                 url := JsStr "https://dav.example.com/cal/work/";
                 ctag := JsStr "ctag-1";
                 supportedComponents := [VEVENT; VTODO] |}).
Proof.
  exact (proj1 (@base_url_resolves_the_url_of_a_calendar Documents.lone_calendar
                  "https://dav.example.com" Fixtures.work_response [] []
                  ltac:(discriminate))).
Defined.

Lemma events_loop_ext (body1 body2 : JsValue -> Outcome) (response : list JsValue) :
  (forall obj, body1 obj = body2 obj) ->
  forall events console,
    events_loop body1 response events console = events_loop body2 response events console.
Proof.
  intros Hext. induction response as [| obj rest IH]; intros events console; cbn; [done |].
  rewrite Hext. destruct (body2 obj); auto.
Qed.

Lemma calendars_loop_empty_base `{Platform} (responses : list JsValue) :
  forall calendars,
    calendars_loop responses (Some "") calendars = calendars_loop responses None calendars.
Proof.
  induction responses as [| res rest IH]; intros calendars; cbn; [done |].
  change (calendar_of_response res (Some "")) with (calendar_of_response res None).
  destruct (calendar_of_response res None) as [| [calendar |]]; cbn; auto.
Qed.

(** X18.  An empty base URL is no base URL: both parsers pass the hrefs through. *)
Theorem empty_base_url_is_no_base_url
    `{Platform, ICAL.Library, NodeIcal.Library} (v : Backend)
    (responseData : string) (console : list Exn) :
  parseCalendars responseData (Some "") = parseCalendars responseData None /\
  parseEvents_of v responseData (Some "") console
  = parseEvents_of v responseData None console.
Proof.
  split.
  - unfold parseCalendars.
    destruct (XMLParser_parse calendarOptions responseData) as [| jsonData]; [done |].
    cbn. destruct (js_get jsonData "multistatus") as [| multistatus]; [done |].
    cbn. destruct (js_get multistatus "response") as [| response]; [done |].
    cbn. apply calendars_loop_empty_base.
  - rewrite !parseEvents_of_around. unfold parseEvents_around.
    destruct (bind _ _) as [| response]; [done |].
    destruct (negb (truthy response)); [done |].
    apply events_loop_ext. intros obj. by destruct v.
Qed.

(** ** The calendars *)

Lemma calendars_loop_trace `{Platform} (baseUrl : option string) (responses : list JsValue) :
  forall calendars returned,
    calendars_loop responses baseUrl calendars = inr returned ->
    exists pushed objs,
      returned = calendars ++ pushed /\
      sublist objs responses /\
      Forall2 (fun calendar res => calendar_of_response res baseUrl = inr (Some calendar))
        pushed objs.
Proof.
  induction responses as [| res rest IH]; intros calendars returned; cbn.
  - intros [= <-]. exists [], []. rewrite app_nil_r. repeat split; constructor.
  - destruct (calendar_of_response res baseUrl) as [| [calendar |]] eqn:Hres;
      cbn; [discriminate | |]; intros Hrun.
    + destruct (IH _ _ Hrun) as (pushed & objs & -> & Hsub & Hall).
      exists (calendar :: pushed), (res :: objs). rewrite <- app_assoc.
      repeat split; [by apply sublist_skip | by constructor].
    + destruct (IH _ _ Hrun) as (pushed & objs & -> & Hsub & Hall).
      exists pushed, objs. repeat split; [by apply sublist_cons | done].
Qed.

Lemma calendar_of_response_fields `{Platform} res baseUrl calendar :
  calendar_of_response res baseUrl = inr (Some calendar) ->
  exists okPropstat,
    find_okPropstat (as_array (own_property res "propstat")) = inr okPropstat /\
    displayName calendar
    = js_coalesce (own_property (own_property okPropstat "prop") "displayname") (JsStr "") /\
    ctag calendar = own_property (own_property okPropstat "prop") "getctag" /\
    (baseUrl = None -> url calendar = own_property res "href").
Proof.
  unfold calendar_of_response. intros Hrun. result_steps Hrun.
  unfold ret in Hrun. simplify_eq. cbn.
  unfold js_get, ret, throw in *.
  repeat match goal with
         | Hget : (if nullish ?x then _ else _) = inr _ |- _ =>
             destruct (nullish x) eqn:?; [discriminate Hget |];
             injection Hget as <-
         end.
  simplify_eq. eexists. split; [eassumption |]. repeat split.
  intros ->. cbn in *. unfold ret in *. by simplify_eq.
Qed.

Lemma js_coalesce_not_nullish (v : JsValue) : nullish (js_coalesce v (JsStr "")) = false.
Proof. unfold js_coalesce. by destruct (nullish v) eqn:Hv. Qed.

(** X19.  The calendars parseCalendars returns are built, in order, from records
    of the document, at most one each; without a base URL the url of each is
    the href of its record as decoded. *)
Theorem calendars_follow_the_records `{Platform}
    (responseData : string) (baseUrl : option string) (response : JsValue)
    (calendars : list Calendar) :
  decodes_with_response calendarOptions responseData response ->
  parseCalendars responseData baseUrl = inr calendars ->
  exists objs,
    sublist objs (as_array response) /\
    Forall2 (fun calendar res => calendar_of_response res baseUrl = inr (Some calendar))
      calendars objs /\
    (length calendars <= length (as_array response))%nat /\
    (baseUrl = None ->
     Forall2 (fun calendar res => url calendar = own_property res "href") calendars objs).
Proof.
  intros (jsonData & multistatus & Hxml & Hms & Hresp) Hrun.
  unfold parseCalendars in Hrun. rewrite Hxml in Hrun. cbn in Hrun.
  rewrite Hms in Hrun. cbn in Hrun. rewrite Hresp in Hrun. cbn in Hrun.
  destruct (calendars_loop_trace _ _ _ _ Hrun) as (pushed & objs & -> & Hsub & Hall).
  exists objs. cbn. repeat split; [done | done | |].
  - rewrite (Forall2_length _ _ _ Hall). by apply sublist_length.
  - intros ->. eapply Forall2_impl; [exact Hall |].
    intros calendar res Hres.
    destruct (calendar_of_response_fields _ _ _ Hres) as (_ & _ & _ & _ & Hurl). auto.
Qed.

Lemma calendars_follow_the_records_witness :
  exists objs,
    sublist objs (as_array (JsArr [Fixtures.tasks_response; Fixtures.work_response])) /\
    Forall2
      (fun calendar res =>
         @calendar_of_response Documents.lone_calendar res None = inr (Some calendar))
      [ {| displayName := JsStr "Work"; url := JsStr "/cal/work/";
           ctag := JsStr "ctag-1"; supportedComponents := [VEVENT; VTODO] |} ] objs /\
    (length [ {| displayName := JsStr "Work"; url := JsStr "/cal/work/";
                 ctag := JsStr "ctag-1"; supportedComponents := [VEVENT; VTODO] |} ]
     <= length (as_array (JsArr [Fixtures.tasks_response; Fixtures.work_response])))%nat /\
    (@None string = None ->
     Forall2 (fun calendar res => url calendar = own_property res "href")
       [ {| displayName := JsStr "Work"; url := JsStr "/cal/work/";
            ctag := JsStr "ctag-1"; supportedComponents := [VEVENT; VTODO] |} ] objs).
Proof.
  apply (@calendars_follow_the_records Documents.lone_calendar "home" None).
  - eexists _, _. repeat split; reflexivity.
  - vm_compute. reflexivity.
Defined.

(** X20.  The displayName of a returned calendar is never undefined or null: it is
    the displayname of the selected propstat, or the empty string when that is
    missing or null; the ctag is the getctag as decoded, undefined when
    missing. *)
Theorem displayName_defaults_to_empty_string `{Platform}
    (res : JsValue) (baseUrl : option string) (calendar : Calendar) :
  calendar_of_response res baseUrl = inr (Some calendar) ->
  nullish (displayName calendar) = false /\
  exists okPropstat,
    find_okPropstat (as_array (own_property res "propstat")) = inr okPropstat /\
    displayName calendar
    = js_coalesce (own_property (own_property okPropstat "prop") "displayname") (JsStr "") /\
    (nullish (own_property (own_property okPropstat "prop") "displayname") = true ->
     displayName calendar = JsStr "") /\
    ctag calendar = own_property (own_property okPropstat "prop") "getctag".
Proof.
  intros Hres.
  destruct (calendar_of_response_fields _ _ _ Hres) as (ok & Hok & Hname & Hctag & _).
  split; [rewrite Hname; apply js_coalesce_not_nullish |].
  exists ok. repeat split; try done.
  intros Hnull. rewrite Hname. unfold js_coalesce. by rewrite Hnull.
Qed.

Lemma displayName_defaults_to_empty_string_witness :
  exists calendar,
    @calendar_of_response Documents.lone_calendar
      (JsObj [("href", JsStr "/cal/y/"); ("propstat", Documents.found_propstat)]) None
    = inr (Some calendar) /\
    nullish (displayName calendar) = false /\
    displayName calendar = JsStr "".
Proof.
  eexists. split; [vm_compute; reflexivity |].
  destruct (@displayName_defaults_to_empty_string Documents.lone_calendar
              (JsObj [("href", JsStr "/cal/y/"); ("propstat", Documents.found_propstat)])
              None _ eq_refl) as (Hnot & _).
  split; [exact Hnot | reflexivity].
Defined.

(** ** The propstat of a calendar record *)

Lemma find_okPropstat_object `{Platform} (p : JsValue) (rest : list JsValue) :
  nullish p = false ->
  find_okPropstat (p :: rest)
  = if status_is_ok p then inr p else find_okPropstat rest.
Proof.
  intros Hobj. cbn. unfold js_get, status_is_ok. rewrite Hobj. cbn.
  by destruct (own_property p "status").
Qed.

Lemma find_okPropstat_none `{Platform} (propstats : list JsValue) :
  Forall (fun q => nullish q = false /\ status_is_ok q = false) propstats ->
  find_okPropstat propstats = inr JsUndefined.
Proof.
  induction 1 as [| q rest [Hobj Hno] _ IH]; [done |].
  by rewrite (find_okPropstat_object _ _ Hobj), Hno.
Qed.

(** X21.  The propstat parseCalendars reads is the first whose status is a string
    that contains "200 ok" once the host's [toLowerCase] has been applied to
    it, whatever that case mapping does to the characters of the status; the
    propstats after it are not looked at, whatever they are. *)
Theorem first_ok_propstat_is_selected `{Platform}
    (before after : list JsValue) (p : JsValue) :
  Forall (fun q => nullish q = false /\ status_is_ok q = false) before ->
  nullish p = false ->
  status_is_ok p = true ->
  find_okPropstat (before ++ p :: after) = inr p.
Proof.
  intros Hbefore Hobj Hok.
  induction Hbefore as [| q rest [Hq Hno] _ IH]; cbn [app].
  - by rewrite (find_okPropstat_object _ _ Hobj), Hok.
  - by rewrite (find_okPropstat_object _ _ Hq), Hno.
Qed.

Lemma first_ok_propstat_is_selected_witness :
  @find_okPropstat Documents.lone_calendar
    ([Documents.failed_propstat] ++ Documents.found_propstat :: [JsNull])
  = inr Documents.found_propstat /\
  @find_okPropstat Documents.lone_calendar
    ([Documents.failed_propstat] ++ Documents.kelvin_propstat
       :: [Documents.found_propstat])
  = inr Documents.kelvin_propstat.
Proof.
  split.
  - apply (@first_ok_propstat_is_selected Documents.lone_calendar
             [Documents.failed_propstat] [JsNull] Documents.found_propstat).
    + repeat constructor.
    + reflexivity.
    + vm_compute. reflexivity.
  - apply (@first_ok_propstat_is_selected Documents.lone_calendar
             [Documents.failed_propstat] [Documents.found_propstat]
             Documents.kelvin_propstat).
    + repeat constructor.
    + reflexivity.
    + vm_compute. reflexivity.
Defined.

(** X22.  A calendar record none of whose propstats has a status that is a
    string containing "200 ok" after the host's [toLowerCase] is skipped,
    whatever else it holds. *)
Theorem record_without_ok_propstat_is_skipped `{Platform}
    (res : JsValue) (baseUrl : option string) :
  nullish res = false ->
  Forall (fun q => nullish q = false /\ status_is_ok q = false)
    (as_array (own_property res "propstat")) ->
  calendar_of_response res baseUrl = inr None.
Proof.
  intros Hobj Hnone. unfold calendar_of_response, js_get. rewrite Hobj. cbn [bind ret].
  by rewrite (find_okPropstat_none _ Hnone).
Qed.

Lemma record_without_ok_propstat_is_skipped_witness :
  @calendar_of_response Documents.lone_calendar
    (JsObj [("href", JsStr "/cal/z/"); ("propstat", Documents.failed_propstat)]) None
  = inr None.
Proof.
  apply (@record_without_ok_propstat_is_skipped Documents.lone_calendar).
  - reflexivity.
  - repeat constructor.
Defined.

(** X23.  A record that has no propstat at all is treated differently by the two
    parsers: parseCalendars wraps the missing propstat into a list and throws
    on reading its status, so the whole call rejects; parseEvents, in either
    variant, skips the record. *)
Theorem record_without_propstat `{Platform, ICAL.Library, NodeIcal.Library}
    (v : Backend) (res : JsValue) (baseUrl : option string)
    (rest : list JsValue) (calendars : list Calendar) :
  nullish res = false ->
  nullish (own_property res "propstat") = true ->
  fails (calendars_loop (res :: rest) baseUrl calendars) /\
  response_body (try_block_of v) baseUrl res = Continue.
Proof.
  intros Hobj Hnone. split.
  - unfold fails. cbn. unfold calendar_of_response, js_get. rewrite Hobj. cbn [bind ret].
    destruct (own_property res "propstat"); try discriminate Hnone; cbn; eauto.
  - apply response_body_continue; [done |].
    unfold calendar_data_of. by destruct (own_property res "propstat").
Qed.

Lemma record_without_propstat_witness :
  fails (@calendars_loop Documents.lone_calendar
           [Documents.record_without_propstat] None []) /\
  response_body
    (@try_block_of Documents.lone_calendar Fixtures.ical_js Fixtures.node_ical ical_js)
    None Documents.record_without_propstat = Continue.
Proof.
  apply (@record_without_propstat Documents.lone_calendar Fixtures.ical_js
           Fixtures.node_ical ical_js Documents.record_without_propstat None [] []);
    reflexivity.
Defined.

(** ** One element or a list of one *)

Lemma calendar_of_response_propstats `{Platform} (res1 res2 : JsValue) baseUrl :
  nullish res1 = false ->
  nullish res2 = false ->
  own_property res1 "href" = own_property res2 "href" ->
  as_array (own_property res1 "propstat") = as_array (own_property res2 "propstat") ->
  calendar_of_response res1 baseUrl = calendar_of_response res2 baseUrl.
Proof.
  intros Hobj1 Hobj2 Hhref Hlist. unfold calendar_of_response, js_get.
  rewrite Hobj1, Hobj2. cbn [bind ret]. by rewrite Hlist, Hhref.
Qed.

(** X24.  Both parsers take a [response] that is one element for the list of that
    element; parseCalendars does the same for the propstat of a record. *)
Theorem one_element_is_a_list_of_one
    `{Platform, ICAL.Library, NodeIcal.Library} (v : Backend)
    (lone listed : string) (baseUrl : option string) (console : list Exn)
    (response res1 res2 : JsValue) :
  decodes_with_response calendarOptions lone response ->
  decodes_with_response calendarOptions listed (JsArr [response]) ->
  decodes_with_response eventOptions lone response ->
  decodes_with_response eventOptions listed (JsArr [response]) ->
  as_array response = [response] ->
  truthy response = true ->
  parseCalendars lone baseUrl = parseCalendars listed baseUrl /\
  parseEvents_of v lone baseUrl console = parseEvents_of v listed baseUrl console /\
  (nullish res1 = false ->
   nullish res2 = false ->
   own_property res1 "href" = own_property res2 "href" ->
   as_array (own_property res1 "propstat") = [own_property res1 "propstat"] ->
   own_property res2 "propstat" = JsArr [own_property res1 "propstat"] ->
   calendar_of_response res1 baseUrl = calendar_of_response res2 baseUrl).
Proof.
  intros (j1 & m1 & Hx1 & Hm1 & Hr1) (j2 & m2 & Hx2 & Hm2 & Hr2)
    (j3 & m3 & Hx3 & Hm3 & Hr3) (j4 & m4 & Hx4 & Hm4 & Hr4) Hlone Htruthy.
  split; [| split].
  - unfold parseCalendars. rewrite Hx1, Hx2. cbn. rewrite Hm1, Hm2. cbn.
    rewrite Hr1, Hr2. cbn. by rewrite Hlone.
  - rewrite !parseEvents_of_around.
    rewrite (parseEvents_around_loop _ _ _ _ _ _ _ Hx3 Hm3 Hr3 Htruthy).
    rewrite (parseEvents_around_loop _ _ _ _ _ _ _ Hx4 Hm4 Hr4 eq_refl).
    by rewrite Hlone.
  - intros Hobj1 Hobj2 Hhref Hone Hlist.
    apply calendar_of_response_propstats; try done. by rewrite Hlist, Hone.
Qed.

Lemma one_element_is_a_list_of_one_witness :
  @parseCalendars Documents.lone_calendar "lone" None
  = @parseCalendars Documents.lone_calendar "listed" None /\
  @parseEvents_of Documents.lone_calendar Fixtures.ical_js Fixtures.node_ical
    ical_js "lone" None []
  = @parseEvents_of Documents.lone_calendar Fixtures.ical_js Fixtures.node_ical
      ical_js "listed" None [].
Proof.
  destruct (@one_element_is_a_list_of_one Documents.lone_calendar Fixtures.ical_js
              Fixtures.node_ical ical_js "lone" "listed" None []
              Fixtures.work_response JsUndefined JsUndefined)
    as (Hcalendars & Hevents & _).
  - eexists _, _. repeat split; reflexivity.
  - eexists _, _. repeat split; reflexivity.
  - eexists _, _. repeat split; reflexivity.
  - eexists _, _. repeat split; reflexivity.
  - reflexivity.
  - reflexivity.
  - split; [exact Hcalendars | exact Hevents].
Defined.

(** ** Calendar-data without a VEVENT *)

(** X25.  A record whose calendar-data parses but holds no VEVENT (a VTODO, say)
    is skipped without a log entry: over ical.js when the calendar has no
    vevent subcomponent, over node-ical when no object of the parse has the
    type "VEVENT". *)
Theorem calendar_data_without_VEVENT_is_skipped
    `{Platform, ICAL.Library, NodeIcal.Library}
    (baseUrl : option string) (obj : JsValue) (raw : string)
    (vcalendar : ICAL.Component) (jcalData : list (string * JsValue)) :
  nullish obj = false ->
  calendar_data_of obj = JsStr raw ->
  raw <> "" ->
  ICAL.parse (replace_cr_entity raw) = inr vcalendar ->
  ICAL.getFirstSubcomponent vcalendar "vevent" = None ->
  NodeIcal.parseICS (replace_cr_entity raw) = inr jcalData ->
  Forall (fun component =>
            nullish component = false /\
            own_property component "type" <> JsStr "VEVENT") (jcalData.*2) ->
  response_body IcalJs.try_block baseUrl obj = Continue /\
  response_body NodeIcal.try_block baseUrl obj = Continue.
Proof.
  intros Hobj Hraw Hne Hparse Hnone Hics Hall.
  rewrite !(response_body_try _ _ _ _ Hobj Hraw Hne). split.
  - unfold IcalJs.try_block. rewrite Hparse. cbn. by rewrite Hnone.
  - unfold NodeIcal.try_block. rewrite Hics. cbn.
    assert (Hfind : NodeIcal.find_VEVENT (jcalData.*2) = inr JsUndefined).
    { induction Hall as [| component rest [Hcomp Htype] _ IH]; [done |].
      cbn. unfold js_get. rewrite Hcomp. cbn.
      destruct (strict_eq_str _ "VEVENT") eqn:Heq; [| exact IH].
      by apply strict_eq_str_true in Heq. }
    by rewrite Hfind.
Qed.

Lemma calendar_data_without_VEVENT_is_skipped_witness :
  response_body (@IcalJs.try_block Documents.lone_calendar Documents.todo_ical_js)
    None Documents.todo_record = Continue /\
  response_body (@NodeIcal.try_block Documents.lone_calendar Documents.todo_node_ical)
    None Documents.todo_record = Continue.
Proof.
  eapply (@calendar_data_without_VEVENT_is_skipped Documents.lone_calendar
            Documents.todo_ical_js Documents.todo_node_ical None Documents.todo_record).
  - reflexivity.
  - reflexivity.
  - discriminate.
  - vm_compute. reflexivity.
  - reflexivity.
  - vm_compute. reflexivity.
  - repeat constructor; discriminate.
Defined.

(** ** The carriage-return entity *)

Lemma replace_cr_entity_cases (c : ascii) (t : string) :
  (exists t', String c t = ("&#13;" ++ t')%string /\
              replace_cr_entity (String c t) = (CRLF ++ replace_cr_entity t')%string) \/
  (String.prefix "&#13;" (String c t) = false /\
   replace_cr_entity (String c t) = String c (replace_cr_entity t)).
Proof.
  destruct c as [[] [] [] [] [] [] [] []]; try (right; split; reflexivity).
  destruct t as [| c2 t2]; [right; split; reflexivity |].
  destruct c2 as [[] [] [] [] [] [] [] []]; try (right; split; reflexivity).
  destruct t2 as [| c3 t3]; [right; split; reflexivity |].
  destruct c3 as [[] [] [] [] [] [] [] []]; try (right; split; reflexivity).
  destruct t3 as [| c4 t4]; [right; split; reflexivity |].
  destruct c4 as [[] [] [] [] [] [] [] []]; try (right; split; reflexivity).
  destruct t4 as [| c5 t5]; [right; split; reflexivity |].
  destruct c5 as [[] [] [] [] [] [] [] []]; try (right; split; reflexivity).
  left. exists t5. split; reflexivity.
Qed.

Lemma CRLF_append (s : string) :
  (CRLF ++ s)%string = String (ascii_of_nat 13) (String (ascii_of_nat 10) s).
Proof. reflexivity. Qed.

Lemma includes_cons (c : ascii) (t search : string) :
  includes (String c t) search = String.prefix search (String c t) || includes t search.
Proof. cbn [includes]. by destruct (String.prefix search (String c t)). Qed.

Lemma replace_cr_entity_without (s : string) :
  includes s "&#13;" = false -> replace_cr_entity s = s.
Proof.
  induction s as [| c t IH]; [done |].
  rewrite includes_cons. intros [Hhead Htail]%orb_false_iff.
  destruct (replace_cr_entity_cases c t) as [(t' & Heq & _) | [_ ->]].
  - rewrite Heq in Hhead. destruct t'; vm_compute in Hhead; discriminate Hhead.
  - by rewrite (IH Htail).
Qed.

(** A prefix of the output that has no carriage return and no ampersand
    after its first character was copied from the input. *)
Lemma replace_cr_entity_tail (w : string) :
  forall t,
    String.prefix w (replace_cr_entity t) = true ->
    Forall (fun a => a <> "&"%char /\ a <> ascii_of_nat 13) (String.list_ascii_of_string w) ->
    String.prefix w t = true.
Proof.
  induction w as [| a w' IH]; intros t Hprefix Hall; [by destruct t |].
  apply Forall_cons in Hall as [[Hamp Hcr] Hall].
  destruct t as [| c t']; [done |].
  destruct (replace_cr_entity_cases c t') as [(t'' & Heq & Hrun) | [_ Hrun]];
    rewrite Hrun in Hprefix; rewrite ?CRLF_append in Hprefix; cbn in Hprefix |- *.
  - match type of Hprefix with
    | context [ascii_dec a ?cr] =>
        destruct (ascii_dec a cr) as [-> | ?]; [| discriminate Hprefix]
    end.
    exfalso. by apply Hcr.
  - destruct (ascii_dec a c) as [-> | ?]; [| done]. by apply IH.
Qed.

Lemma replace_cr_entity_clean_bounded (n : nat) :
  forall s, (String.length s <= n)%nat ->
            includes (replace_cr_entity s) "&#13;" = false.
Proof.
  induction n as [| n IH]; intros s Hlen.
  - destruct s; [done | cbn in Hlen; lia].
  - destruct s as [| c t]; [done |].
    destruct (replace_cr_entity_cases c t) as [(t' & Heq & ->) | [Hhead ->]].
    + rewrite CRLF_append, !includes_cons. cbn.
      apply IH. apply (f_equal String.length) in Heq.
      change ("&#13;" ++ t')%string
        with (String "&" (String "#" (String "1" (String "3" (String ";" t'))))) in Heq.
      cbn in Heq, Hlen. lia.
    + rewrite includes_cons. apply orb_false_iff. split.
      * apply not_true_is_false. intros Hprefix.
        cbn [String.prefix] in Hhead, Hprefix.
        destruct (ascii_dec "&"%char c) as [<- | ?]; [| done].
        apply replace_cr_entity_tail in Hprefix; [congruence |].
        repeat constructor; discriminate.
      * apply IH. cbn in Hlen. lia.
Qed.

(** X26.  After the replacement no carriage-return entity is left, so that the
    replacement changes nothing when applied again; a text without the entity
    is not changed at all. *)
Theorem replace_cr_entity_normalises (s : string) :
  includes (replace_cr_entity s) "&#13;" = false /\
  replace_cr_entity (replace_cr_entity s) = replace_cr_entity s /\
  (includes s "&#13;" = false -> replace_cr_entity s = s).
Proof.
  assert (Hclean : includes (replace_cr_entity s) "&#13;" = false)
    by (by apply (replace_cr_entity_clean_bounded (String.length s))).
  split; [exact Hclean |]. split; [by apply replace_cr_entity_without |].
  apply replace_cr_entity_without.
Qed.

Lemma replace_cr_entity_normalises_witness :
  replace_cr_entity "BEGIN:VCALENDAR" = "BEGIN:VCALENDAR".
Proof.
  apply (proj2 (proj2 (replace_cr_entity_normalises "BEGIN:VCALENDAR"))).
  reflexivity.
Defined.
